(** * Nifty-Dash: the return analyzer of [app.py]

    A shallow embedding of [analyze_nifty_data] and of the pandas operations
    it is built from, followed by the properties of the analysis.

    Conventions of the embedding.
    - A float is a rational [Q]; a cell that may hold NaN is an [option Q]
      with [None] for NaN.  Comparisons with NaN are false, as in IEEE.
      The arithmetic is exact: the rounding, overflow and underflow of
      float64 are not modelled.
      Division by a zero close (inf or NaN in pandas) is outside the
      embedding: the well-formed price series have positive closes.
    - A [Timestamp] of the daily index is a calendar date.  The rows of a
      frame are in strictly increasing order of dates within the range of
      Timestamps: on a repeated date or a label past the range [resample]
      raises, and it sorts rows that are out of order; such frames are
      outside the embedding, [is_dated_frame] and [is_price_series] say
      which frames are inside.
    - A Python exception is a value [Raise e] of the [result] type.
    - The wall clock read by [pd.Timestamp('now').year] is the argument
      [current_year].
    - pandas is the 1.x line, the one in which
      [Index.get_loc(key, method='nearest')] exists. *)

From Stdlib Require Import String List ZArith QArith Qabs Bool Lia Lqa Sorted
  Permutation FinFun.
Import ListNotations.

Local Open Scope Z_scope.

(** ** Exceptions *)

Inductive exn : Type := KeyError | IndexError | UnboundLocalError.

Inductive result (A : Type) : Type :=
| Ok (a : A)
| Raise (e : exn).

Arguments Ok {A} a.
Arguments Raise {A} e.

Definition bind {A B : Type} (m : result A) (k : A -> result B) : result B :=
  match m with
  | Ok a => k a
  | Raise e => Raise e
  end.

Declare Scope result_scope.
Delimit Scope result_scope with result.
Notation "x <- m ;; k" := (bind m (fun x => k))
  (at level 100, m at next level, right associativity) : result_scope.
Local Open Scope result_scope.

(** [for x in xs: st = body st x], stopping at the first exception. *)
Fixpoint for_each {S X : Type} (body : S -> X -> result S) (xs : list X) (st : S)
  : result S :=
  match xs with
  | [] => Ok st
  | x :: xs' => st' <- body st x ;; for_each body xs' st'
  end.

(** [l[k]] with Python's negative indices. *)
Definition py_getitem {A : Type} (l : list A) (k : Z) : result A :=
  let k' := if k <? 0 then Z.of_nat (length l) + k else k in
  if k' <? 0 then Raise IndexError
  else match nth_error l (Z.to_nat k') with
       | Some a => Ok a
       | None => Raise IndexError
       end.

(** ** Calendar *)

Record Date : Type := mkDate { year : Z; month : Z; day : Z }.

Definition is_leap (y : Z) : bool :=
  (y mod 4 =? 0) && (negb (y mod 100 =? 0) || (y mod 400 =? 0)).

Definition days_in_month (y m : Z) : Z :=
  if m =? 2 then (if is_leap y then 29 else 28)
  else if (m =? 4) || (m =? 6) || (m =? 9) || (m =? 11) then 30
  else 31.

Definition days_before_year (y : Z) : Z :=
  let p := y - 1 in p * 365 + p / 4 - p / 100 + p / 400.

Definition days_before_month (y m : Z) : Z :=
  fold_left Z.add
    (map (fun i => days_in_month y (Z.of_nat i)) (seq 1 (Z.to_nat (m - 1)))) 0.

(** Proleptic Gregorian day number; differences of timestamps are
    differences of these. *)
Definition toordinal (d : Date) : Z :=
  days_before_year (year d) + days_before_month (year d) (month d) + day d.

Definition date_eqb (a b : Date) : bool :=
  (year a =? year b) && (month a =? month b) && (day a =? day b).

Definition date_ltb (a b : Date) : bool :=
  (year a <? year b)
  || ((year a =? year b)
      && ((month a <? month b) || ((month a =? month b) && (day a <? day b)))).

Definition date_leb (a b : Date) : bool := date_ltb a b || date_eqb a b.

(** Period labels of [resample]: the last day of the period. *)
Definition year_key (d : Date) : Z := year d.
Definition year_end (y : Z) : Date := mkDate y 12 31.

Definition month_key (d : Date) : Z := 12 * year d + (month d - 1).
Definition month_end (k : Z) : Date :=
  let y := k / 12 in
  let m := k mod 12 + 1 in
  mkDate y m (days_in_month y m).

(** ** Frames and series *)

Definition cell : Type := option Q.

Definition Series : Type := list (Date * cell).

Record DataFrame : Type := mkFrame {
  index : list Date;
  columns : list (string * list cell)
}.

Fixpoint lookup_column (name : string) (cols : list (string * list cell))
  : result (list cell) :=
  match cols with
  | [] => Raise KeyError
  | (n, c) :: rest => if String.eqb n name then Ok c else lookup_column name rest
  end.

(** [df[name]] *)
Definition getitem (df : DataFrame) (name : string) : result Series :=
  c <- lookup_column name (columns df) ;; Ok (combine (index df) c).

Fixpoint assign_column (name : string) (v : list cell)
  (cols : list (string * list cell)) : list (string * list cell) :=
  match cols with
  | [] => [(name, v)]
  | (n, c) :: rest =>
      if String.eqb n name then (n, v) :: rest
      else (n, c) :: assign_column name v rest
  end.

(** [df[name] = s]: the column is replaced in place, or appended. *)
Definition setitem (df : DataFrame) (name : string) (s : Series) : DataFrame :=
  mkFrame (index df) (assign_column name (map snd s) (columns df)).

(** Boolean-mask row selection. *)
Definition mask {A : Type} (keep : list bool) (l : list A) : list A :=
  map snd (filter (fun p => fst p) (combine keep l)).

(** [df[df.index.year == y]] *)
Definition select_year (y : Z) (df : DataFrame) : DataFrame :=
  let keep := map (fun d => year d =? y) (index df) in
  mkFrame (mask keep (index df))
          (map (fun nc => (fst nc, mask keep (snd nc))) (columns df)).

(** ** pandas operations on a series *)

Fixpoint ffill_na (prev : cell) (l : list cell) : list cell :=
  match l with
  | [] => []
  | c :: rest =>
      let c' := match c with Some _ => c | None => prev end in
      c' :: ffill_na c' rest
  end.

Definition ratio_minus_one (cur prev : cell) : cell :=
  match cur, prev with
  | Some a, Some b => Some (a / b - 1)%Q
  | _, _ => None
  end.

Fixpoint shift_ratio (prev : cell) (l : list cell) : list cell :=
  match l with
  | [] => []
  | c :: rest => ratio_minus_one c prev :: shift_ratio c rest
  end.

(** [s.pct_change()]: pad the gaps, then [s / s.shift(1) - 1]. *)
Definition pct_change (s : Series) : Series :=
  combine (map fst s) (shift_ratio None (ffill_na None (map snd s))).

Fixpoint dropna (s : Series) : list (Date * Q) :=
  match s with
  | [] => []
  | (d, Some q) :: rest => (d, q) :: dropna rest
  | (_, None) :: rest => dropna rest
  end.

(** The value a forward-filling [reindex] gives the label: that of the last
    row at or before it, NaN when there is none. *)
Definition ffill_at (s : Series) (label : Date) : cell :=
  fold_left (fun acc row => if date_leb (fst row) label then snd row else acc)
            s None.

Definition Zrange (a b : Z) : list Z :=
  map (fun i => a + Z.of_nat i) (seq 0 (Z.to_nat (b - a + 1))).

(** [s.resample(rule).ffill()] for a rule whose periods are numbered by [key]
    and end on [period_end]: one row per period from that of the first row to
    that of the last.  The rows are taken to be in strictly increasing order
    of dates, with every period label in the range of Timestamps; on other
    rows pandas sorts first, or raises. *)
Definition resample_ffill (key : Date -> Z) (period_end : Z -> Date)
  (s : Series) : Series :=
  match s with
  | [] => []
  | (d0, _) :: _ =>
      let dn := fst (last s (d0, None)) in
      map (fun k => (period_end k, ffill_at s (period_end k)))
          (Zrange (key d0) (key dn))
  end.

Definition Qsum (l : list Q) : Q := fold_left Qplus l 0%Q.

(** [s.mean()]: NaN on an empty series. *)
Definition mean (s : list (Date * Q)) : cell :=
  match s with
  | [] => None
  | _ => Some (Qsum (map snd s) / inject_Z (Z.of_nat (length s)))%Q
  end.

(** [x > m] for floats, false when [m] is NaN. *)
Definition gt_cell (x : Q) (m : cell) : bool :=
  match m with
  | Some v => negb (Qle_bool x v)
  | None => false
  end.

(** [idx.get_loc(key, method='nearest')] on an increasing index: the
    forward-filling and the back-filling position, the nearer of the two, the
    later one on a tie. *)
Fixpoint pad_indexer (idx : list Date) (key : Date) (i : nat) (acc : option nat)
  : option nat :=
  match idx with
  | [] => acc
  | d :: rest =>
      pad_indexer rest key (S i) (if date_leb d key then Some i else acc)
  end.

Fixpoint backfill_indexer (idx : list Date) (key : Date) (i : nat) : option nat :=
  match idx with
  | [] => None
  | d :: rest =>
      if date_leb key d then Some i else backfill_indexer rest key (S i)
  end.

Definition distance (idx : list Date) (key : Date) (i : Z) : result Z :=
  d <- py_getitem idx i ;; Ok (Z.abs (toordinal d - toordinal key)).

(** An indexer entry, [-1] for a label that was not found. *)
Definition indexer_pos (o : option nat) : Z :=
  match o with
  | Some i => Z.of_nat i
  | None => -1
  end.

Definition get_loc_nearest (idx : list Date) (key : Date) : result nat :=
  match idx with
  | [] => Raise KeyError
  | _ =>
      let left := indexer_pos (pad_indexer idx key 0 None) in
      let right := indexer_pos (backfill_indexer idx key 0) in
      dl <- distance idx key left ;;
      dr <- distance idx key right ;;
      let loc := if (dl <? dr) || (right =? -1) then left else right in
      if loc =? -1 then Raise KeyError else Ok (Z.to_nat loc)
  end.

(** ** The analysis *)

(** *** Slump detection (the scan over [negative_or_zero_returns]) *)

Definition scan_state : Type := (option Z * list (Z * Z))%type.

Definition scan_body (negative_or_zero_returns : list (Date * bool))
  (st : scan_state) (i : nat) : result scan_state :=
  let '(start_year, consecutive_periods) := st in
  let idx := map fst negative_or_zero_returns in
  flag <- py_getitem (map snd negative_or_zero_returns) (Z.of_nat i) ;;
  if flag : bool then
    match start_year with
    | None => d <- py_getitem idx (Z.of_nat i) ;;
              Ok (Some (year d), consecutive_periods)
    | Some _ => Ok st
    end
  else
    match start_year with
    | Some s => d <- py_getitem idx (Z.of_nat i - 1) ;;
                Ok (None, consecutive_periods ++ [(s, year d)])
    | None => Ok st
    end.

Definition find_slumps (yearly_returns : list (Date * Q)) : result (list (Z * Z)) :=
  let negative_or_zero_returns :=
    map (fun r => (fst r, Qle_bool (snd r) 0)) yearly_returns in
  st <- for_each (scan_body negative_or_zero_returns)
                 (seq 0 (List.length negative_or_zero_returns)) (None, []) ;;
  match fst st with
  | Some s => d <- py_getitem (map fst negative_or_zero_returns) (-1) ;;
              Ok (snd st ++ [(s, year d)])
  | None => Ok (snd st)
  end.

(** *** Recovery counts (the loop over [consecutive_periods]) *)

Record counters : Type := mkCounters {
  count_next_year_exceeds : nat;
  count_next_two_years_exceeds : nat;
  next_year_return : option Q   (* [None]: the local is not bound yet *)
}.

Definition estimate_body (yearly_returns : list (Date * Q))
  (mean_yearly_return : cell) (st : counters) (period : Z * Z) : result counters :=
  let end_year := snd period in
  let end_year_timestamp := year_end end_year in
  let idx := map fst yearly_returns in
  let len := Z.of_nat (List.length yearly_returns) in
  match get_loc_nearest idx end_year_timestamp with
  | Raise KeyError => Ok st
  | Raise e => Raise e
  | Ok loc =>
      let end_year_index := Z.of_nat loc in
      hit <- (if end_year_index <? len
              then d <- py_getitem idx end_year_index ;; Ok (year d =? end_year)
              else Ok false) ;;
      if hit : bool then
        st1 <- (if end_year_index + 1 <? len
                then r <- py_getitem (map snd yearly_returns) (end_year_index + 1) ;;
                     Ok (mkCounters
                           (if gt_cell r mean_yearly_return
                            then S (count_next_year_exceeds st)
                            else count_next_year_exceeds st)
                           (count_next_two_years_exceeds st)
                           (Some r))
                else Ok st) ;;
        if end_year_index + 2 <? len
        then r2 <- py_getitem (map snd yearly_returns) (end_year_index + 2) ;;
             match next_year_return st1 with
             | None => Raise UnboundLocalError
             | Some r1 =>
                 Ok (mkCounters
                       (count_next_year_exceeds st1)
                       (if gt_cell r1 mean_yearly_return
                           && gt_cell r2 mean_yearly_return
                        then S (count_next_two_years_exceeds st1)
                        else count_next_two_years_exceeds st1)
                       (next_year_return st1))
             end
        else Ok st1
      else Ok st
  end.

Definition count_recoveries (yearly_returns : list (Date * Q))
  (mean_yearly_return : cell) (consecutive_periods : list (Z * Z))
  : result counters :=
  for_each (estimate_body yearly_returns mean_yearly_return)
           consecutive_periods (mkCounters 0 0 None).

(** [count / total if total > 0 else 0] *)
Definition ratio (count total : nat) : Q :=
  if (0 <? total)%nat
  then (inject_Z (Z.of_nat count) / inject_Z (Z.of_nat total))%Q
  else 0%Q.

(** The two probabilities, from a series, its mean and a list of periods. *)
Definition estimate (yearly_returns : list (Date * Q))
  (mean_yearly_return : cell) (consecutive_periods : list (Z * Z))
  : result (Q * Q) :=
  let total_negative_or_zero_periods := List.length consecutive_periods in
  c <- count_recoveries yearly_returns mean_yearly_return consecutive_periods ;;
  Ok (ratio (count_next_year_exceeds c) total_negative_or_zero_periods,
      ratio (count_next_two_years_exceeds c) total_negative_or_zero_periods).

(** *** [analyze_nifty_data] *)

Record Analysis : Type := mkAnalysis {
  yearly_returns : list (Date * Q);
  monthly_returns_current_year : list (Date * Q);
  probability_next_year_exceeds : Q;
  probability_next_two_years_exceeds : Q;
  mean_yearly_return : cell
}.

Definition returns_of (key : Date -> Z) (period_end : Z -> Date) (close : Series)
  : list (Date * Q) :=
  dropna (pct_change (resample_ffill key period_end close)).

(** The function returns its five results; the frame it was given is the
    caller's object, so the frame after the call is returned with them. *)
Definition analyze_nifty_data (current_year : Z) (nifty_historical_data : DataFrame)
  : result (Analysis * DataFrame) :=
  close <- getitem nifty_historical_data "Close" ;;
  let nifty_historical_data :=
    setitem nifty_historical_data "Daily_Return" (pct_change close) in
  close <- getitem nifty_historical_data "Close" ;;
  let yearly_returns := returns_of year_key year_end close in
  let current_year_data := select_year current_year nifty_historical_data in
  current_close <- getitem current_year_data "Close" ;;
  let monthly_returns_current_year :=
    returns_of month_key month_end current_close in
  let mean_yearly_return := mean yearly_returns in
  consecutive_periods <- find_slumps yearly_returns ;;
  p <- estimate yearly_returns mean_yearly_return consecutive_periods ;;
  Ok (mkAnalysis yearly_returns monthly_returns_current_year
                 (fst p) (snd p) mean_yearly_return,
      nifty_historical_data).

(** ** Example data *)

(** Six yearly closes, 2018 to 2023. *)
Definition closes_2018_2023 : DataFrame :=
  mkFrame (map year_end [2018; 2019; 2020; 2021; 2022; 2023])
          [("Close"%string,
            map (fun z => Some (inject_Z z)) [100; 90; 95; 80; 120; 130])].

Definition analysis_2018_2023 : Analysis :=
  mkAnalysis
    [(year_end 2019, -10 # 100); (year_end 2020, 5 # 90);
     (year_end 2021, -15 # 95); (year_end 2022, 40 # 80);
     (year_end 2023, 10 # 120)]%Q
    []
    (1 # 2)%Q (1 # 2)%Q
    (Some (3127200000 # 41040000000)%Q).

Definition frame_2018_2023_after : DataFrame :=
  mkFrame (index closes_2018_2023)
          (columns closes_2018_2023
           ++ [("Daily_Return"%string,
                [None; Some (-10 # 100); Some (5 # 90); Some (-15 # 95);
                 Some (40 # 80); Some (10 # 120)]%Q)]).

(** ** Vocabulary of the slump scan *)

(** The flag of [negative_or_zero_returns] at position [i]. *)
Definition flag_at (series : list (Date * Q)) (i : nat) : bool :=
  match nth_error series i with
  | Some (_, r) => Qle_bool r 0
  | None => false
  end.

(** In a series whose years are consecutive from [y0]: year [y] is in the
    series and its return is not positive. *)
Definition nonpos (series : list (Date * Q)) (y0 y : Z) : Prop :=
  y0 <= y < y0 + Z.of_nat (List.length series)
  /\ flag_at series (Z.to_nat (y - y0)) = true.

Definition gap (a b : Z * Z) : Prop := snd a + 1 < fst b.

Definition maximal_run (series : list (Date * Q)) (y0 : Z) (p : Z * Z) : Prop :=
  fst p <= snd p
  /\ (forall y, fst p <= y <= snd p -> nonpos series y0 y)
  /\ ~ nonpos series y0 (fst p - 1)
  /\ ~ nonpos series y0 (snd p + 1).

Definition scan_bound (y0 : Z) (k : nat) (st : scan_state) : Z :=
  match fst st with
  | Some s => s
  | None => y0 + Z.of_nat k
  end.

(** What holds after the scan has read the first [k] entries. *)
Definition scan_inv (series : list (Date * Q)) (y0 : Z) (k : nat)
  (st : scan_state) : Prop :=
  match fst st with
  | Some s => y0 <= s < y0 + Z.of_nat k
              /\ (forall y, s <= y < y0 + Z.of_nat k -> nonpos series y0 y)
              /\ ~ nonpos series y0 (s - 1)
  | None => ~ nonpos series y0 (y0 + Z.of_nat k - 1)
  end
  /\ StronglySorted gap (snd st)
  /\ (forall p, In p (snd st) -> maximal_run series y0 p
                                 /\ snd p + 1 < scan_bound y0 k st)
  /\ (forall y, nonpos series y0 y -> y < scan_bound y0 k st ->
        exists p, In p (snd st) /\ fst p <= y <= snd p).

(** ** Vocabulary of the properties *)

(** The index that [resample('Y')] produces: 31 December of consecutive
    years. *)
Fixpoint is_yearly (idx : list Date) : bool :=
  match idx with
  | [] => true
  | d :: rest =>
      date_eqb d (year_end (year d))
      && match rest with
         | [] => true
         | d' :: _ => year d' =? year d + 1
         end
      && is_yearly rest
  end.

Definition yearly_series (s : list (Date * Q)) : Prop :=
  is_yearly (map fst s) = true.

Definition nonpos_year (s : list (Date * Q)) (y : Z) : Prop :=
  exists d r, In (d, r) s /\ year d = y /\ (r <= 0)%Q.

Definition positive_year (s : list (Date * Q)) (y : Z) : Prop :=
  exists d r, In (d, r) s /\ year d = y /\ (0 < r)%Q.

Definition covers (p : Z * Z) (y : Z) : Prop := fst p <= y <= snd p.

Definition last_error {A : Type} (l : list A) : option A :=
  nth_error l (List.length l - 1).

Definition returns_2019_2023 : list (Date * Q) :=
  [(year_end 2019, (-1 # 10)%Q); (year_end 2020, (1 # 18)%Q);
   (year_end 2021, (-3 # 19)%Q); (year_end 2022, (1 # 2)%Q);
   (year_end 2023, (1 # 12)%Q)].

(** The rows of the current year, as the monthly resampling sees them. *)
Definition current_year_close (current_year : Z) (df : DataFrame) (c : list cell)
  : Series :=
  let keep := map (fun d => year d =? current_year) (index df) in
  combine (mask keep (index df)) (mask keep c).

(** An index of year ends, consecutive from [ystart]. *)
Definition year_ends_from (ystart : Z) (idx : list Date) : Prop :=
  forall j d, nth_error idx j = Some d -> d = year_end (ystart + Z.of_nat j).

(** Position of the entry of year [e], counting from [i]. *)
Fixpoint find_year (s : list (Date * Q)) (e : Z) (i : nat) : option nat :=
  match s with
  | [] => None
  | (d, _) :: rest => if year d =? e then Some i else find_year rest e (S i)
  end.

Definition return_at (s : list (Date * Q)) (i : nat) : option Q :=
  option_map snd (nth_error s i).

Definition exceeds_at (s : list (Date * Q)) (m : cell) (i : nat) : bool :=
  match return_at s i with
  | Some r => gt_cell r m
  | None => false
  end.

(** "Next year exceeds": the entry right after that of the slump's end year
    is above the mean; false when there is no such entry. *)
Definition next_year_exceeds (s : list (Date * Q)) (m : cell) (p : Z * Z) : bool :=
  match find_year s (snd p) 0 with
  | Some i => exceeds_at s m (i + 1)
  | None => false
  end.

(** "Next two years exceed": next year exceeds, and so does the entry two
    positions after that of the end year. *)
Definition next_two_years_exceed (s : list (Date * Q)) (m : cell) (p : Z * Z) : bool :=
  next_year_exceeds s m p
  && match find_year s (snd p) 0 with
     | Some i => exceeds_at s m (i + 2)
     | None => false
     end.

Fixpoint increasing (idx : list Date) : bool :=
  match idx with
  | a :: ((b :: _) as rest) => date_ltb a b && increasing rest
  | _ => true
  end.

(** A calendar date that a [Timestamp] can hold together with the labels of
    its periods.  Timestamps run from 1677-09-21 to 2262-04-11, so with the
    year between 1678 and 2261 the date itself, the last day of its month
    and 31 December of its year are all representable, and [resample]
    raises no [OutOfBoundsDatetime]. *)
Definition valid_dateb (d : Date) : bool :=
  (1678 <=? year d) && (year d <=? 2261)
  && (1 <=? month d) && (month d <=? 12)
  && (1 <=? day d) && (day d <=? days_in_month (year d) (month d)).

Definition positive_cell (c : cell) : bool :=
  match c with
  | Some q => negb (Qle_bool q 0)
  | None => false
  end.

(** The frames the analysis is meant for: calendar dates in strictly
    increasing order, columns as long as the index, and a [Close] column of
    positive numbers. *)
Definition is_price_series (df : DataFrame) : bool :=
  increasing (index df)
  && forallb valid_dateb (index df)
  && forallb (fun nc => Nat.eqb (List.length (snd nc)) (List.length (index df)))
             (columns df)
  && match lookup_column "Close" (columns df) with
     | Ok c => forallb positive_cell c
     | Raise _ => false
     end.

Definition price_series (df : DataFrame) : Prop := is_price_series df = true.

(** The yearly periods of the resampling: every calendar year from that of
    the first row to that of the last. *)
Definition years_covered (df : DataFrame) : list Z :=
  match index df with
  | [] => []
  | d0 :: _ => Zrange (year d0) (year (last (index df) d0))
  end.

(** [c] is the close of the latest row dated on or before [label]. *)
Definition last_close_on_or_before (df : DataFrame) (label : Date) (c : Q) : Prop :=
  exists close d,
    getitem df "Close" = Ok close
    /\ In (d, Some c) close
    /\ date_leb d label = true
    /\ forall d' c', In (d', c') close -> date_leb d' label = true ->
                     date_leb d' d = true.

Definition date_lt (a b : Date) : Prop := date_ltb a b = true.

Definition yearly_close (close : Series) (y : Z) : Q :=
  match ffill_at close (year_end y) with
  | Some q => q
  | None => 0
  end.

(** [r] is [p] per mille, to the nearest unit. *)
Definition rounds_to_permille (r : Q) (p : Z) : Prop :=
  (Qabs (r * 1000 - inject_Z p) <= 1 # 2)%Q.

Definition single_close : DataFrame :=
  mkFrame [mkDate 2023 5 10] [("Close"%string, [Some 100%Q])].


(** The year of the entry that the nearest-label lookup of 31 December of
    year [e] lands on. *)
Definition nearest_entry_year (s : list (Date * Q)) (e : Z) : option Z :=
  match get_loc_nearest (map fst s) (year_end e) with
  | Ok loc => option_map (fun row => year (fst row)) (nth_error s loc)
  | Raise _ => None
  end.

(** No entry is dated 31 December of year [e], and the nearest entry is of
    another year. *)
Definition lookup_misses (s : list (Date * Q)) (e : Z) : Prop :=
  ~ In (year_end e) (map fst s)
  /\ exists y, nearest_entry_year s e = Some y /\ y <> e.

Definition returns_2019_2020 : list (Date * Q) :=
  [(year_end 2019, (-1 # 10)%Q); (year_end 2020, (1 # 2)%Q)].


Definition closes_2018_and_2020 : DataFrame :=
  mkFrame [mkDate 2018 6 1; mkDate 2020 6 1]
          [("Close"%string, [Some 100%Q; Some 110%Q])].

Definition closes_rising : DataFrame :=
  mkFrame (map year_end [2020; 2021; 2022])
          [("Close"%string, [Some 100%Q; Some 110%Q; Some 121%Q])].

Definition closes_falling : DataFrame :=
  mkFrame (map year_end [2020; 2021; 2022])
          [("Close"%string, [Some 100%Q; Some 90%Q; Some 90%Q])].

(** The close that the forward fill gives a label, 0 when there is none. *)
Definition close_at (close : Series) (label : Date) : Q :=
  match ffill_at close label with
  | Some q => q
  | None => 0
  end.

(** The rows dated in the current year. *)
Definition current_year_rows (current_year : Z) (df : DataFrame) : list Date :=
  filter (fun d => year d =? current_year) (index df).

Definition end_of_month (y m : Z) : Date := mkDate y m (days_in_month y m).

(** [c] is the close of the latest row of year [y] dated on or before
    [label]. *)
Definition last_close_of_year_on_or_before (df : DataFrame) (y : Z)
  (label : Date) (c : Q) : Prop :=
  exists close d,
    getitem df "Close" = Ok close
    /\ In (d, Some c) close
    /\ year d = y
    /\ date_leb d label = true
    /\ forall d' c', In (d', c') close -> year d' = y ->
                     date_leb d' label = true -> date_leb d' d = true.

Definition closes_early_2023 : DataFrame :=
  mkFrame [mkDate 2022 12 30; mkDate 2023 1 15; mkDate 2023 2 10; mkDate 2023 4 3]
          [("Close"%string, [Some 9%Q; Some 10%Q; Some 11%Q; Some 12%Q])].

Definition closes_2018_2023_with_midyear : DataFrame :=
  mkFrame [year_end 2018; mkDate 2019 6 28; year_end 2019; year_end 2020;
           mkDate 2021 3 1; year_end 2021; year_end 2022; year_end 2023]
          [("Close"%string,
            map (fun z => Some (inject_Z z)) [100; 60; 90; 95; 140; 80; 120; 130])].






(** The series has an entry dated 31 December of year [y] whose return is
    above [m]. *)
Definition above_mean_in (s : list (Date * Q)) (m : cell) (y : Z) : bool :=
  existsb (fun row => date_eqb (fst row) (year_end y) && gt_cell (snd row) m) s.

(** The return of the year after the end of the slump is above the mean. *)
Definition recovers_next_year (s : list (Date * Q)) (m : cell) (p : Z * Z) : bool :=
  above_mean_in s m (snd p + 1).

(** So are the returns of both years after the end of the slump. *)
Definition recovers_next_two_years (s : list (Date * Q)) (m : cell) (p : Z * Z)
  : bool :=
  above_mean_in s m (snd p + 1) && above_mean_in s m (snd p + 2).

(** ** Basic facts about the control structures *)

Example analyze_closes_2018_2023 :
  analyze_nifty_data 2024 closes_2018_2023
  = Ok (analysis_2018_2023, frame_2018_2023_after).
Proof. vm_compute. reflexivity. Qed.

Lemma for_each_app {S X : Type} (body : S -> X -> result S) (xs ys : list X) (st : S) :
  for_each body (xs ++ ys) st = (st' <- for_each body xs st ;; for_each body ys st').
Proof.
  revert st. induction xs as [|x xs IH]; intros st; simpl; [reflexivity|].
  destruct (body st x) as [st'|e]; simpl; [apply IH | reflexivity].
Qed.

Lemma py_getitem_nth {A : Type} (l : list A) (i : nat) (a : A) :
  nth_error l i = Some a -> py_getitem l (Z.of_nat i) = Ok a.
Proof.
  intros H. unfold py_getitem. cbv zeta.
  assert (E : (Z.of_nat i <? 0) = false) by (apply Z.ltb_ge; lia).
  rewrite !E, Nat2Z.id, H. reflexivity.
Qed.

Lemma py_getitem_Z {A : Type} (l : list A) (k : Z) (a : A) :
  0 <= k -> nth_error l (Z.to_nat k) = Some a -> py_getitem l k = Ok a.
Proof.
  intros Hk H. rewrite <- (Z2Nat.id k Hk). now apply py_getitem_nth.
Qed.

Lemma py_getitem_last {A : Type} (l : list A) (d : A) :
  l <> [] -> py_getitem l (-1) = Ok (last l d).
Proof.
  intros Hl. unfold py_getitem. cbv zeta. change (-1 <? 0) with true. cbv iota.
  destruct (exists_last Hl) as (l' & a & ->).
  rewrite last_last, length_app. simpl List.length.
  replace (Z.of_nat (List.length l' + 1) + -1) with (Z.of_nat (List.length l')) by lia.
  assert (E : (Z.of_nat (List.length l') <? 0) = false) by (apply Z.ltb_ge; lia).
  rewrite E, Nat2Z.id, nth_error_app2, Nat.sub_diag by lia. reflexivity.
Qed.

Lemma last_nth_error {A : Type} (l : list A) (a d : A) :
  nth_error l (List.length l - 1) = Some a -> last l d = a.
Proof.
  intros H. destruct l as [|x l0]; [discriminate|].
  destruct (@exists_last _ (x :: l0)) as (l' & b & E); [discriminate|].
  rewrite E in *. rewrite last_last. rewrite length_app in H. simpl in H.
  rewrite nth_error_app2 in H by lia.
  replace (List.length l' + 1 - 1 - List.length l')%nat with 0%nat in H by lia.
  simpl in H. congruence.
Qed.

(** ** Slump detection: the loop invariant *)

Section SlumpScan.

Variable series : list (Date * Q).
Variable y0 : Z.

(** The years of the series are consecutive, starting at [y0]. *)
Hypothesis Hyears : forall i d r,
  nth_error series i = Some (d, r) -> year d = y0 + Z.of_nat i.

Local Abbreviation n := (List.length series).
Let nz := map (fun r : Date * Q => (fst r, Qle_bool (snd r) 0)) series.

Lemma nonpos_at (k : nat) :
  (k < n)%nat -> (nonpos series y0 (y0 + Z.of_nat k) <-> flag_at series k = true).
Proof.
  intros Hk. unfold nonpos.
  replace (Z.to_nat (y0 + Z.of_nat k - y0)) with k by lia.
  split; [tauto | intros H; split; [lia | exact H]].
Qed.

Lemma nz_flag (k : nat) :
  (k < n)%nat -> nth_error (map snd nz) k = Some (flag_at series k).
Proof.
  intros Hk. unfold nz, flag_at. rewrite map_map. simpl.
  rewrite nth_error_map.
  destruct (nth_error series k) as [[d r]|] eqn:E; simpl; [reflexivity|].
  apply nth_error_None in E. fold n in E. lia.
Qed.

Lemma nz_year (k : nat) :
  (k < n)%nat ->
  exists d, nth_error (map fst nz) k = Some d /\ year d = y0 + Z.of_nat k.
Proof.
  intros Hk. unfold nz. rewrite map_map. simpl. rewrite nth_error_map.
  destruct (nth_error series k) as [[d r]|] eqn:E; simpl.
  - exists d. split; [reflexivity | eapply Hyears; eauto].
  - apply nth_error_None in E. fold n in E. lia.
Qed.

Lemma StronglySorted_snoc {A : Type} (R : A -> A -> Prop) (l : list A) (a : A) :
  StronglySorted R l -> (forall x, In x l -> R x a) -> StronglySorted R (l ++ [a]).
Proof.
  induction 1 as [|x l Hs IH Hx]; intros Ha; simpl.
  - repeat constructor.
  - constructor.
    + apply IH. intros z Hz. apply Ha. now right.
    + apply Forall_app. split; [exact Hx|].
      constructor; [apply Ha; now left | constructor].
Qed.

Lemma scan_body_inv (k : nat) (st : scan_state) :
  (k < n)%nat -> scan_inv series y0 k st ->
  exists st', scan_body nz st k = Ok st' /\ scan_inv series y0 (S k) st'.
Proof.
  intros Hk (Hst & Hsorted & Hruns & Hcover).
  destruct st as [start ps]. unfold scan_body, scan_bound in *. simpl in *.
  rewrite (py_getitem_nth _ _ _ (nz_flag k Hk)). simpl.
  pose proof (nonpos_at k Hk) as Hflag.
  destruct (flag_at series k) eqn:Ek; destruct start as [s|].
  - (* inside a run *)
    eexists; split; [reflexivity|]. unfold scan_inv, scan_bound; cbn [fst snd].
    destruct Hst as (Hs & Hall & Hbefore).
    split; [|split; [|split]]; auto.
    split; [lia|]. split; [|exact Hbefore].
    intros y Hy. destruct (Z.eq_dec y (y0 + Z.of_nat k)) as [->|Hne].
    + now apply Hflag.
    + apply Hall. lia.
  - (* a run opens *)
    destruct (nz_year k Hk) as (d & Hd & Hyd).
    rewrite (py_getitem_nth _ _ _ Hd). cbn [bind]. rewrite Hyd.
    eexists; split; [reflexivity|]. unfold scan_inv, scan_bound; cbn [fst snd].
    split; [|split; [|split]]; auto.
    split; [lia|]. split.
    + intros y Hy. replace y with (y0 + Z.of_nat k) by lia. now apply Hflag.
    + exact Hst.
  - (* a run closes *)
    destruct Hst as (Hs & Hall & Hbefore).
    assert (Hk1 : (k - 1 < n)%nat) by lia.
    destruct (nz_year (k - 1) Hk1) as (d & Hd & Hyd).
    assert (Hidx : py_getitem (map fst nz) (Z.of_nat k - 1) = Ok d).
    { apply py_getitem_Z; [lia|].
      replace (Z.to_nat (Z.of_nat k - 1)) with (k - 1)%nat by lia. exact Hd. }
    rewrite Hidx. cbn [bind]. rewrite Hyd.
    replace (y0 + Z.of_nat (k - 1)) with (y0 + Z.of_nat k - 1) by lia.
    assert (Hnot : ~ nonpos series y0 (y0 + Z.of_nat k)).
    { intros H. apply Hflag in H. discriminate. }
    eexists; split; [reflexivity|]. unfold scan_inv, scan_bound; cbn [fst snd].
    split; [|split; [|split]].
    + replace (y0 + Z.of_nat (S k) - 1) with (y0 + Z.of_nat k) by lia. exact Hnot.
    + apply StronglySorted_snoc; [exact Hsorted|].
      intros q Hq. unfold gap. cbn [fst snd]. apply Hruns in Hq. lia.
    + intros p Hp. apply in_app_or in Hp. destruct Hp as [Hp|[<-|[]]].
      * destruct (Hruns p Hp) as (Hmax & Hlt). split; [exact Hmax | lia].
      * unfold maximal_run. cbn [fst snd].
        replace (y0 + Z.of_nat k - 1 + 1) with (y0 + Z.of_nat k) by lia.
        split; [|lia]. split; [lia|]. split; [|split; assumption].
        intros y Hy. apply Hall. lia.
    + intros y Hy Hlt.
      destruct (Z_lt_dec y s) as [Hys|Hys].
      * destruct (Hcover y Hy Hys) as (p & Hp & Hin).
        exists p. split; [apply in_or_app; now left | exact Hin].
      * exists (s, y0 + Z.of_nat k - 1). split; [apply in_or_app; right; now left|].
        cbn [fst snd].
        assert (y <> y0 + Z.of_nat k) by (intros ->; contradiction). lia.
  - (* between runs *)
    assert (Hnot : ~ nonpos series y0 (y0 + Z.of_nat k)).
    { intros H. apply Hflag in H. discriminate. }
    eexists; split; [reflexivity|]. unfold scan_inv, scan_bound; cbn [fst snd].
    split; [|split; [|split]].
    + replace (y0 + Z.of_nat (S k) - 1) with (y0 + Z.of_nat k) by lia. exact Hnot.
    + exact Hsorted.
    + intros p Hp. destruct (Hruns p Hp) as (Hmax & Hlt). split; [exact Hmax | lia].
    + intros y Hy Hlt. apply Hcover; [exact Hy|].
      assert (y <> y0 + Z.of_nat k) by (intros ->; contradiction). lia.
Qed.

Lemma scan_loop_inv (k : nat) :
  (k <= n)%nat ->
  exists st, for_each (scan_body nz) (seq 0 k) (None, []) = Ok st /\ scan_inv series y0 k st.
Proof.
  induction k as [|k IH]; intros Hk.
  - exists (None, []). split; [reflexivity|].
    unfold scan_inv, scan_bound; cbn [fst snd].
    split; [unfold nonpos; lia|]. split; [constructor|].
    split; [intros p []|].
    intros y Hy Hlt. unfold nonpos in Hy. lia.
  - destruct IH as (st & Hrun & Hinv); [lia|].
    destruct (scan_body_inv k st) as (st' & Hbody & Hinv'); [lia | exact Hinv |].
    exists st'. split; [|exact Hinv'].
    rewrite seq_S, for_each_app, Hrun. simpl. rewrite Hbody. reflexivity.
Qed.

(** The scan returns, and what it returns is the list of the maximal runs of
    non-positive years, in order, with a positive year between two of them. *)
Lemma find_slumps_runs :
  exists ps,
    find_slumps series = Ok ps
    /\ StronglySorted gap ps
    /\ (forall p, In p ps -> maximal_run series y0 p)
    /\ (forall y, nonpos series y0 y -> exists p, In p ps /\ fst p <= y <= snd p)
    /\ (nonpos series y0 (y0 + Z.of_nat n - 1) ->
        exists ps' s, ps = ps' ++ [(s, y0 + Z.of_nat n - 1)]).
Proof.
  destruct (scan_loop_inv n (Nat.le_refl n)) as ([start ps] & Hrun & Hinv).
  unfold find_slumps. fold nz. unfold nz at 2. rewrite length_map. fold n.
  rewrite Hrun. simpl.
  destruct Hinv as (Hst & Hsorted & Hruns & Hcover).
  unfold scan_bound in *. simpl in *.
  destruct start as [s|].
  - destruct Hst as (Hs & Hall & Hbefore).
    assert (Hn1 : (n - 1 < n)%nat) by lia.
    destruct (nz_year (n - 1) Hn1) as (d & Hd & Hyd).
    assert (Hne : map fst nz <> []).
    { intros E. rewrite E in Hd. destruct (n - 1)%nat; discriminate. }
    rewrite (py_getitem_last _ d Hne). simpl.
    assert (Hlast : last (map fst nz) d = d).
    { apply last_nth_error.
      replace (List.length (map fst nz) - 1)%nat with (n - 1)%nat; [exact Hd|].
      unfold nz. rewrite !length_map. reflexivity. }
    rewrite Hlast, Hyd.
    replace (y0 + Z.of_nat (n - 1)) with (y0 + Z.of_nat n - 1) by lia.
    assert (Hout : ~ nonpos series y0 (y0 + Z.of_nat n - 1 + 1)) by (unfold nonpos; lia).
    eexists; split; [reflexivity|]. split; [|split; [|split]].
    + apply StronglySorted_snoc; [exact Hsorted|].
      intros q Hq. unfold gap. cbn [fst snd]. apply Hruns in Hq. lia.
    + intros p Hp. apply in_app_or in Hp. destruct Hp as [Hp|[<-|[]]].
      * now apply Hruns.
      * unfold maximal_run. cbn [fst snd].
        split; [lia|]. split; [|split; assumption].
        intros y Hy. apply Hall. lia.
    + intros y Hy. destruct (Z_lt_dec y s) as [Hys|Hys].
      * destruct (Hcover y Hy Hys) as (p & Hp & Hin).
        exists p. split; [apply in_or_app; now left | exact Hin].
      * exists (s, y0 + Z.of_nat n - 1). split; [apply in_or_app; right; now left|].
        simpl. destruct Hy as (Hy & _). lia.
    + intros _. now exists ps, s.
  - eexists; split; [reflexivity|]. split; [|split; [|split]].
    + exact Hsorted.
    + intros p Hp. now apply Hruns.
    + intros y Hy. apply Hcover; [exact Hy|]. destruct Hy as (Hy & _). lia.
    + intros H. contradiction.
Qed.

End SlumpScan.

(** ** Yearly return series *)

Lemma date_eqb_eq (a b : Date) : date_eqb a b = true <-> a = b.
Proof.
  unfold date_eqb. destruct a as [ya ma da], b as [yb mb db]. simpl.
  rewrite !andb_true_iff, !Z.eqb_eq. split.
  - intros ((-> & ->) & ->). reflexivity.
  - intros E. injection E as -> -> ->. auto.
Qed.

Lemma is_yearly_nth (d0 : Date) (rest : list Date) :
  is_yearly (d0 :: rest) = true ->
  forall i d, nth_error (d0 :: rest) i = Some d ->
              d = year_end (year d0 + Z.of_nat i).
Proof.
  revert d0. induction rest as [|d1 rest IH]; intros d0 H i d Hi.
  - destruct i as [|i]; [|destruct i; discriminate].
    simpl in Hi. injection Hi as <-.
    simpl in H. rewrite !andb_true_r in H. apply date_eqb_eq in H.
    now rewrite Z.add_0_r.
  - cbn [is_yearly] in H. apply andb_true_iff in H. destruct H as (H & Hrest).
    apply andb_true_iff in H. destruct H as (Hd0 & Hnext).
    apply date_eqb_eq in Hd0. apply Z.eqb_eq in Hnext.
    destruct i as [|i].
    + simpl in Hi. injection Hi as <-. now rewrite Z.add_0_r.
    + simpl in Hi. rewrite (IH d1 Hrest i d Hi), Hnext. f_equal. lia.
Qed.

Lemma yearly_series_years (s : list (Date * Q)) :
  yearly_series s ->
  exists y0, forall i d r,
    nth_error s i = Some (d, r) -> d = year_end (y0 + Z.of_nat i).
Proof.
  unfold yearly_series. destruct s as [|[d0 r0] s'].
  - intros _. exists 0. intros [|i] d r H; discriminate.
  - intros H. exists (year d0). intros i d r Hi.
    apply (is_yearly_nth d0 (map fst s') H i d).
    change (d0 :: map fst s') with (map fst ((d0, r0) :: s')).
    rewrite nth_error_map, Hi. reflexivity.
Qed.

Section YearsOfSeries.

Variable series : list (Date * Q).
Variable y0 : Z.
Hypothesis Hyears : forall i d r,
  nth_error series i = Some (d, r) -> year d = y0 + Z.of_nat i.

Lemma nonpos_iff (y : Z) : nonpos series y0 y <-> nonpos_year series y.
Proof.
  unfold nonpos, nonpos_year, flag_at. split.
  - intros (Hy & Hf).
    destruct (nth_error series (Z.to_nat (y - y0))) as [[d r]|] eqn:E;
      [|discriminate].
    exists d, r. split; [eapply nth_error_In; eauto|]. split.
    + rewrite (Hyears _ _ _ E). lia.
    + now apply Qle_bool_iff.
  - intros (d & r & Hin & Hyd & Hr).
    apply In_nth_error in Hin. destruct Hin as (i & Hi).
    pose proof (Hyears _ _ _ Hi) as Hy.
    assert (Hlt : (i < List.length series)%nat).
    { apply nth_error_Some. rewrite Hi. discriminate. }
    split; [lia|].
    replace (Z.to_nat (y - y0)) with i by lia.
    rewrite Hi. now apply Qle_bool_iff.
Qed.

Lemma positive_not_nonpos (y : Z) :
  positive_year series y -> ~ nonpos_year series y.
Proof.
  intros (d & r & Hin & Hyd & Hr) (d' & r' & Hin' & Hyd' & Hr').
  apply In_nth_error in Hin, Hin'.
  destruct Hin as (i & Hi), Hin' as (i' & Hi').
  pose proof (Hyears _ _ _ Hi). pose proof (Hyears _ _ _ Hi').
  assert (i = i') by lia. subst i'.
  rewrite Hi in Hi'. injection Hi' as _ <-.
  apply (Qlt_not_le _ _ Hr Hr').
Qed.

End YearsOfSeries.

Lemma StronglySorted_weaken {A : Type} (R R' : A -> A -> Prop) (l : list A) :
  (forall a b, R a b -> R' a b) -> StronglySorted R l -> StronglySorted R' l.
Proof.
  intros HR. induction 1 as [|a l Hs IH Ha]; constructor; auto.
  eapply Forall_impl; [|exact Ha]. intros b. apply HR.
Qed.

Lemma StronglySorted_In_weaken {A : Type} (R R' : A -> A -> Prop) (l : list A) :
  (forall a b, In a l -> In b l -> R a b -> R' a b) ->
  StronglySorted R l -> StronglySorted R' l.
Proof.
  intros HR Hs. induction Hs as [|a l Hs IH Ha]; constructor.
  - apply IH. intros x z Hx Hz. apply HR; now right.
  - rewrite Forall_forall in *. intros b Hb.
    apply HR; [now left | now right | now apply Ha].
Qed.

(** ** Slump detection: the partition into maximal runs *)

(** C2.  On every yearly return series the scan returns a list of slumps
    [(start_year, end_year)] that is ordered by start year and pairwise
    disjoint (a slump ends before the next one starts), each with
    [start_year <= end_year]; a year lies in one of the slumps exactly when
    it is a year of the series whose return is [<= 0]; each slump is a
    maximal run (the year before its start and the year after its end are
    not non-positive years); a non-positive year between two positive years
    is the slump [(y, y)]; and when the last return is non-positive, the
    last slump ends at the last year of the series. *)
Theorem find_slumps_partition (s : list (Date * Q)) :
  yearly_series s ->
  exists slumps,
    find_slumps s = Ok slumps
    /\ StronglySorted (fun a b => fst a < fst b /\ snd a < fst b) slumps
    /\ Forall (fun p => fst p <= snd p) slumps
    /\ (forall y, (exists p, In p slumps /\ covers p y) <-> nonpos_year s y)
    /\ (forall p, In p slumps ->
          ~ nonpos_year s (fst p - 1) /\ ~ nonpos_year s (snd p + 1))
    /\ (forall y, nonpos_year s y -> positive_year s (y - 1) ->
          positive_year s (y + 1) -> In (y, y) slumps)
    /\ (forall d r, last_error s = Some (d, r) -> (r <= 0)%Q ->
          exists rest start, slumps = rest ++ [(start, year d)]).
Proof.
  intros Hs. destruct (yearly_series_years s Hs) as (y0 & Hends).
  assert (Hyears : forall i d r,
            nth_error s i = Some (d, r) -> year d = y0 + Z.of_nat i).
  { intros i d r Hi. now rewrite (Hends i d r Hi). }
  destruct (find_slumps_runs s y0 Hyears)
    as (slumps & Hrun & Hsorted & Hmax & Hcover & Hend).
  exists slumps. split; [exact Hrun|].
  assert (Hle : forall p, In p slumps -> fst p <= snd p).
  { intros p Hp. now destruct (Hmax p Hp). }
  assert (Hiff : forall y,
            (exists p, In p slumps /\ covers p y) <-> nonpos_year s y).
  { intros y. rewrite <- (nonpos_iff s y0 Hyears). split.
    - intros (p & Hp & Hy). destruct (Hmax p Hp) as (_ & Hall & _). now apply Hall.
    - apply Hcover. }
  split; [|split; [|split; [|split; [|split]]]].
  - apply (StronglySorted_In_weaken gap); [|exact Hsorted].
    intros a b Ha Hb. unfold gap. apply Hle in Ha. lia.
  - apply Forall_forall. exact Hle.
  - exact Hiff.
  - intros p Hp. destruct (Hmax p Hp) as (_ & _ & Hb & Ha).
    rewrite <- !(nonpos_iff s y0 Hyears). now split.
  - intros y Hy Hprev Hnext.
    apply (positive_not_nonpos s y0 Hyears) in Hprev, Hnext.
    destruct (proj2 (Hiff y) Hy) as ([a b] & Hp & Hab).
    unfold covers in Hab. simpl in Hab.
    assert (Hcov : forall z, a <= z <= b -> nonpos_year s z).
    { intros z Hz. apply Hiff. exists (a, b). now split. }
    destruct (Z.eq_dec a y) as [->|Hay];
      [|exfalso; apply Hprev, Hcov; lia].
    destruct (Z.eq_dec b y) as [->|Hby];
      [exact Hp | exfalso; apply Hnext, Hcov; lia].
  - intros d r Hlast Hr. unfold last_error in Hlast.
    assert (Hn : (0 < List.length s)%nat).
    { destruct s; [discriminate | simpl; lia]. }
    pose proof (Hyears _ _ _ Hlast) as Hyd.
    destruct Hend as (rest & start & ->).
    + apply (nonpos_iff s y0 Hyears). exists d, r.
      split; [eapply nth_error_In; eauto|]. split; [lia | exact Hr].
    + exists rest, start. do 3 f_equal. lia.
Qed.

Lemma find_slumps_partition_witness :
  exists slumps,
    find_slumps returns_2019_2023 = Ok slumps
    /\ Forall (fun p => fst p <= snd p) slumps.
Proof.
  assert (Hy : yearly_series returns_2019_2023) by reflexivity.
  destruct (find_slumps_partition returns_2019_2023 Hy)
    as (slumps & Hrun & _ & Hle & _).
  exists slumps. split; assumption.
Defined.

(** ** Frames: reading and assigning columns *)

Lemma lookup_assign_other (n m : string) (v : list cell) (cols : list (string * list cell)) :
  n <> m -> lookup_column n (assign_column m v cols) = lookup_column n cols.
Proof.
  intros Hnm. induction cols as [|[k c] cols IH]; simpl.
  - destruct (String.eqb_spec m n); [congruence | reflexivity].
  - destruct (String.eqb_spec k m) as [->|Hkm]; simpl.
    + destruct (String.eqb_spec m n); [congruence | reflexivity].
    + destruct (String.eqb_spec k n); [reflexivity | exact IH].
Qed.

Lemma lookup_assign_same (m : string) (v : list cell) (cols : list (string * list cell)) :
  lookup_column m (assign_column m v cols) = Ok v.
Proof.
  induction cols as [|[k c] cols IH]; simpl.
  - now rewrite String.eqb_refl.
  - destruct (String.eqb_spec k m) as [->|Hkm]; simpl.
    + now rewrite String.eqb_refl.
    + destruct (String.eqb_spec k m); [congruence | exact IH].
Qed.

Lemma assign_assign (m : string) (v : list cell) (cols : list (string * list cell)) :
  assign_column m v (assign_column m v cols) = assign_column m v cols.
Proof.
  induction cols as [|[k c] cols IH]; simpl.
  - now rewrite String.eqb_refl.
  - destruct (String.eqb_spec k m) as [->|Hkm]; simpl.
    + now rewrite String.eqb_refl.
    + destruct (String.eqb_spec k m); [congruence | now rewrite IH].
Qed.

Lemma lookup_map_columns (n : string) (f : list cell -> list cell)
  (cols : list (string * list cell)) :
  lookup_column n (map (fun nc => (fst nc, f (snd nc))) cols)
  = (c <- lookup_column n cols ;; Ok (f c)).
Proof.
  induction cols as [|[k c] cols IH]; simpl; [reflexivity|].
  destruct (String.eqb k n); [reflexivity | exact IH].
Qed.

Lemma map_snd_combine {A B : Type} (l : list A) (l' : list B) :
  List.length l = List.length l' -> map snd (combine l l') = l'.
Proof.
  revert l'. induction l as [|a l IH]; intros [|b l'] H; simpl in *;
    try discriminate; [reflexivity|].
  f_equal. apply IH. lia.
Qed.

(** The analysis, once the [Close] column is known to be there. *)
Lemma analyze_nifty_data_eq (current_year : Z) (df : DataFrame) (c : list cell) :
  lookup_column "Close" (columns df) = Ok c ->
  analyze_nifty_data current_year df =
  (let close := combine (index df) c in
   let yr := returns_of year_key year_end close in
   let mo := returns_of month_key month_end (current_year_close current_year df c) in
   ps <- find_slumps yr ;;
   p <- estimate yr (mean yr) ps ;;
   Ok (mkAnalysis yr mo (fst p) (snd p) (mean yr),
       setitem df "Daily_Return" (pct_change close))).
Proof.
  intros Hc. unfold analyze_nifty_data, getitem, select_year, setitem.
  cbn [columns index]. rewrite Hc. cbn [bind].
  rewrite lookup_assign_other by discriminate. rewrite Hc. cbn [bind].
  rewrite lookup_map_columns, lookup_assign_other by discriminate.
  rewrite Hc. cbn [bind]. reflexivity.
Qed.

Lemma analyze_nifty_data_close (current_year : Z) (df : DataFrame)
  (out : Analysis) (df' : DataFrame) :
  analyze_nifty_data current_year df = Ok (out, df') ->
  exists c, lookup_column "Close" (columns df) = Ok c
            /\ df' = setitem df "Daily_Return" (pct_change (combine (index df) c)).
Proof.
  intros H. destruct (lookup_column "Close" (columns df)) as [c|e] eqn:Hc.
  - exists c. split; [reflexivity|].
    rewrite (analyze_nifty_data_eq _ _ _ Hc) in H. cbv zeta in H.
    destruct (find_slumps _) as [ps|]; [|discriminate]. cbn [bind] in H.
    destruct (estimate _ _ _) as [p|]; [|discriminate]. cbn [bind] in H.
    now injection H as _ <-.
  - unfold analyze_nifty_data, getitem in H. rewrite Hc in H. discriminate.
Qed.

(** ** The input frame after the call *)

(** C9, as stated, fails: the call adds a [Daily_Return] column to the frame
    it is given. *)
Lemma analyze_mutates_input :
  exists out df',
    analyze_nifty_data 2024 closes_2018_2023 = Ok (out, df')
    /\ map fst (columns closes_2018_2023) = ["Close"%string]
    /\ map fst (columns df') = ["Close"%string; "Daily_Return"%string]
    /\ df' <> closes_2018_2023.
Proof.
  exists analysis_2018_2023, frame_2018_2023_after.
  split; [exact analyze_closes_2018_2023|].
  split; [reflexivity|]. split; [reflexivity|]. discriminate.
Qed.

(** C9, amended.  After a call that returns, the frame has the index it had,
    every column other than [Daily_Return] reads as before, in particular
    [Close], and [Daily_Return] holds the day-over-day change of [Close]. *)
Theorem analyze_frame_effect (current_year : Z) (df : DataFrame)
  (out : Analysis) (df' : DataFrame) :
  analyze_nifty_data current_year df = Ok (out, df') ->
  index df' = index df
  /\ (forall name, name <> "Daily_Return"%string ->
        lookup_column name (columns df') = lookup_column name (columns df))
  /\ exists close,
       getitem df "Close" = Ok close
       /\ getitem df' "Close" = Ok close
       /\ lookup_column "Daily_Return" (columns df')
          = Ok (map snd (pct_change close)).
Proof.
  intros H. destruct (analyze_nifty_data_close _ _ _ _ H) as (c & Hc & ->).
  split; [reflexivity|]. split.
  - intros name Hname. unfold setitem. cbn [columns].
    now apply lookup_assign_other.
  - exists (combine (index df) c). unfold getitem, setitem. cbn [columns index].
    rewrite lookup_assign_other by discriminate.
    rewrite Hc, lookup_assign_same. cbn [bind].
    repeat split.
Qed.

Lemma analyze_frame_effect_witness :
  index frame_2018_2023_after = index closes_2018_2023
  /\ lookup_column "Daily_Return" (columns frame_2018_2023_after)
     = Ok [None; Some (-10 # 100); Some (5 # 90); Some (-15 # 95);
           Some (40 # 80); Some (10 # 120)]%Q.
Proof.
  destruct (analyze_frame_effect _ _ _ _ analyze_closes_2018_2023)
    as (Hidx & _ & close & Hclose & _ & Hdaily).
  split; [exact Hidx|]. reflexivity.
Defined.

(** ** Calling the analysis again *)

(** C10.  A second call with the same current year on the frame the first
    call was given (which the first call has extended with [Daily_Return])
    returns the same five results and leaves the frame as the first call left
    it.  Two calls on equal frames are equal as well, the analysis being a
    function of the frame and the current year. *)
Theorem analyze_twice (current_year : Z) (df : DataFrame)
  (out : Analysis) (df' : DataFrame) :
  analyze_nifty_data current_year df = Ok (out, df') ->
  analyze_nifty_data current_year df' = Ok (out, df')
  /\ forall df2, df2 = df ->
       analyze_nifty_data current_year df2 = Ok (out, df').
Proof.
  intros H. split; [|intros df2 ->; exact H].
  destruct (analyze_nifty_data_close _ _ _ _ H) as (c & Hc & Hdf').
  assert (Hc' : lookup_column "Close" (columns df') = Ok c).
  { rewrite Hdf'. unfold setitem. cbn [columns].
    now rewrite lookup_assign_other by discriminate. }
  rewrite (analyze_nifty_data_eq _ _ _ Hc'), <- H.
  rewrite (analyze_nifty_data_eq _ _ _ Hc).
  assert (Hidx : index df' = index df) by (now rewrite Hdf').
  assert (Hset : setitem df' "Daily_Return" (pct_change (combine (index df') c))
                 = setitem df "Daily_Return" (pct_change (combine (index df) c))).
  { rewrite Hidx. rewrite Hdf' at 1. unfold setitem. cbn [columns index].
    now rewrite assign_assign. }
  unfold current_year_close. rewrite Hset, Hidx. reflexivity.
Qed.

Lemma analyze_twice_witness :
  analyze_nifty_data 2024 frame_2018_2023_after
  = Ok (analysis_2018_2023, frame_2018_2023_after).
Proof.
  exact (proj1 (analyze_twice _ _ _ _ analyze_closes_2018_2023)).
Defined.

(** ** Nearest-label lookup *)

Lemma pad_indexer_range (idx : list Date) (key : Date) (i : nat) (acc : option nat) (j : nat) :
  pad_indexer idx key i acc = Some j ->
  acc = Some j \/ (i <= j < i + List.length idx)%nat.
Proof.
  revert i acc. induction idx as [|d idx IH]; intros i acc H; simpl in *.
  - now left.
  - apply IH in H. destruct H as [H|H]; [|right; lia].
    destruct (date_leb d key); [|now left].
    injection H as <-. right. lia.
Qed.

Lemma backfill_indexer_range (idx : list Date) (key : Date) (i j : nat) :
  backfill_indexer idx key i = Some j -> (i <= j < i + List.length idx)%nat.
Proof.
  revert i. induction idx as [|d idx IH]; intros i H; simpl in *; [discriminate|].
  destruct (date_leb key d).
  - injection H as <-. lia.
  - apply IH in H. lia.
Qed.

Lemma distance_ok (idx : list Date) (key : Date) (o : option nat) :
  idx <> [] ->
  (forall j, o = Some j -> (j < List.length idx)%nat) ->
  exists z, distance idx key (indexer_pos o) = Ok z.
Proof.
  intros Hne Ho. unfold distance. destruct o as [j|]; simpl.
  - specialize (Ho j eq_refl).
    destruct (nth_error idx j) as [d|] eqn:E.
    + rewrite (py_getitem_nth _ _ _ E). simpl. eauto.
    + apply nth_error_None in E. lia.
  - destruct idx as [|d0 idx']; [congruence|].
    rewrite (py_getitem_last _ d0 Hne). simpl. eauto.
Qed.

(** The lookup raises nothing but [KeyError], and a position it returns is
    a position of the index. *)
Lemma get_loc_nearest_cases (idx : list Date) (key : Date) :
  get_loc_nearest idx key = Raise KeyError
  \/ exists loc, get_loc_nearest idx key = Ok loc /\ (loc < List.length idx)%nat.
Proof.
  unfold get_loc_nearest. destruct idx as [|d0 idx'] eqn:E; [now left|].
  rewrite <- E.
  assert (Hne : idx <> []) by (rewrite E; discriminate).
  clear E.
  pose proof (pad_indexer_range idx key 0 None) as Hl.
  pose proof (backfill_indexer_range idx key 0) as Hr.
  assert (Hl' : forall j, pad_indexer idx key 0 None = Some j ->
                          (j < List.length idx)%nat).
  { intros j Hj. destruct (Hl j Hj) as [?|?]; [discriminate | lia]. }
  assert (Hr' : forall j, backfill_indexer idx key 0 = Some j ->
                          (j < List.length idx)%nat).
  { intros j Hj. specialize (Hr j Hj). lia. }
  destruct (distance_ok idx key _ Hne Hl') as (dl & ->).
  destruct (distance_ok idx key _ Hne Hr') as (dr & ->).
  cbn [bind].
  destruct ((dl <? dr) || (indexer_pos (backfill_indexer idx key 0) =? -1)).
  - destruct (pad_indexer idx key 0 None) as [j|]; simpl; [|now left].
    right. exists j.
    replace (Z.of_nat j =? -1) with false by (symmetry; apply Z.eqb_neq; lia).
    rewrite Nat2Z.id. split; [reflexivity|]. now apply Hl'.
  - destruct (backfill_indexer idx key 0) as [j|]; simpl; [|now left].
    right. exists j.
    replace (Z.of_nat j =? -1) with false by (symmetry; apply Z.eqb_neq; lia).
    rewrite Nat2Z.id. split; [reflexivity|]. now apply Hr'.
Qed.

Lemma date_leb_year_end (a b : Z) :
  date_leb (year_end a) (year_end b) = (a <=? b).
Proof.
  unfold date_leb, date_ltb, date_eqb, year_end. simpl.
  destruct (Z.ltb_spec a b), (Z.eqb_spec a b), (Z.leb_spec a b);
    simpl; try reflexivity; lia.
Qed.

Lemma year_ends_from_tail (ystart : Z) (d : Date) (idx : list Date) :
  year_ends_from ystart (d :: idx) ->
  d = year_end ystart /\ year_ends_from (ystart + 1) idx.
Proof.
  intros H. split.
  - rewrite (H 0%nat d eq_refl). f_equal. lia.
  - intros j x Hj. rewrite (H (S j) x Hj). f_equal. lia.
Qed.

Lemma pad_indexer_past (idx : list Date) (ystart e : Z) (i : nat) (acc : option nat) :
  year_ends_from ystart idx -> e < ystart ->
  pad_indexer idx (year_end e) i acc = acc.
Proof.
  revert ystart i acc. induction idx as [|d idx IH]; intros ystart i acc H He;
    [reflexivity|].
  apply year_ends_from_tail in H. destruct H as (-> & Htl).
  simpl. rewrite date_leb_year_end.
  replace (ystart <=? e) with false by (symmetry; apply Z.leb_gt; lia).
  apply (IH (ystart + 1)); [exact Htl | lia].
Qed.

Lemma pad_indexer_hit (idx : list Date) (ystart e : Z) (i : nat) (acc : option nat) :
  year_ends_from ystart idx ->
  ystart <= e < ystart + Z.of_nat (List.length idx) ->
  pad_indexer idx (year_end e) i acc = Some (i + Z.to_nat (e - ystart))%nat.
Proof.
  revert ystart i acc. induction idx as [|d idx IH]; intros ystart i acc H He;
    [simpl in He; lia|].
  apply year_ends_from_tail in H. destruct H as (-> & Htl).
  simpl. rewrite date_leb_year_end.
  replace (ystart <=? e) with true by (symmetry; apply Z.leb_le; lia).
  destruct (Z.eq_dec e ystart) as [->|Hne].
  - rewrite (pad_indexer_past idx (ystart + 1)) by (auto; lia).
    f_equal. lia.
  - rewrite (IH (ystart + 1)); [f_equal; lia | exact Htl |].
    simpl List.length in He. lia.
Qed.

Lemma backfill_indexer_hit (idx : list Date) (ystart e : Z) (i : nat) :
  year_ends_from ystart idx ->
  ystart <= e < ystart + Z.of_nat (List.length idx) ->
  backfill_indexer idx (year_end e) i = Some (i + Z.to_nat (e - ystart))%nat.
Proof.
  revert ystart i. induction idx as [|d idx IH]; intros ystart i H He;
    [simpl in He; lia|].
  apply year_ends_from_tail in H. destruct H as (-> & Htl).
  simpl. rewrite date_leb_year_end.
  destruct (Z.eq_dec e ystart) as [->|Hne].
  - rewrite Z.leb_refl. f_equal. lia.
  - replace (e <=? ystart) with false by (symmetry; apply Z.leb_gt; lia).
    rewrite (IH (ystart + 1)); [f_equal; lia | exact Htl |].
    simpl List.length in He. lia.
Qed.

(** On a yearly index the lookup of 31 December of a year of the index is
    exact. *)
Lemma get_loc_nearest_exact (idx : list Date) (ystart e : Z) :
  year_ends_from ystart idx ->
  ystart <= e < ystart + Z.of_nat (List.length idx) ->
  get_loc_nearest idx (year_end e) = Ok (Z.to_nat (e - ystart)).
Proof.
  intros H He. unfold get_loc_nearest.
  destruct idx as [|d0 idx'] eqn:E; [simpl in He; lia|]. rewrite <- E in *.
  rewrite (pad_indexer_hit idx ystart e 0 None H He).
  rewrite (backfill_indexer_hit idx ystart e 0 H He). simpl Nat.add.
  assert (Hne : idx <> []) by (rewrite E; discriminate).
  assert (Hin : forall j, Some (Z.to_nat (e - ystart)) = Some j ->
                          (j < List.length idx)%nat).
  { intros j Hj. injection Hj as <-. lia. }
  destruct (distance_ok idx (year_end e) _ Hne Hin) as (z & ->).
  cbn [bind]. rewrite Z.ltb_irrefl. simpl indexer_pos.
  assert (Hpos : (Z.of_nat (Z.to_nat (e - ystart)) =? -1) = false)
    by (apply Z.eqb_neq; lia).
  rewrite !Hpos. cbn [orb]. rewrite Hpos. now rewrite Nat2Z.id.
Qed.

(** ** Recovery counts on a yearly series *)

Lemma py_getitem_offset {A : Type} (l : list A) (k : nat) (j : Z) (a : A) :
  0 <= j -> nth_error l (k + Z.to_nat j) = Some a ->
  py_getitem l (Z.of_nat k + j) = Ok a.
Proof.
  intros Hj H. apply py_getitem_Z; [lia|].
  replace (Z.to_nat (Z.of_nat k + j)) with (k + Z.to_nat j)%nat by lia. exact H.
Qed.

Lemma find_year_from (s : list (Date * Q)) (ystart e : Z) (i : nat) :
  (forall j d r, nth_error s j = Some (d, r) -> d = year_end (ystart + Z.of_nat j)) ->
  find_year s e i =
  if (ystart <=? e) && (e <? ystart + Z.of_nat (List.length s))
  then Some (i + Z.to_nat (e - ystart))%nat
  else None.
Proof.
  revert ystart i. induction s as [|[d r] s IH]; intros ystart i H.
  - simpl. destruct (Z.leb_spec ystart e), (Z.ltb_spec e (ystart + 0));
      simpl; try reflexivity; lia.
  - assert (Hd : d = year_end ystart).
    { rewrite (H 0%nat d r eq_refl). f_equal. lia. }
    assert (Htl : forall j d' r', nth_error s j = Some (d', r') ->
                  d' = year_end (ystart + 1 + Z.of_nat j)).
    { intros j d' r' Hj. rewrite (H (S j) d' r' Hj). f_equal. lia. }
    cbn [find_year]. subst d. cbn [year year_end].
    rewrite (IH (ystart + 1) (S i) Htl). cbn [List.length].
    destruct (Z.eqb_spec ystart e) as [->|Hne].
    + rewrite Z.leb_refl.
      replace (e <? e + Z.of_nat (S (List.length s))) with true
        by (symmetry; apply Z.ltb_lt; lia).
      simpl. f_equal. lia.
    + destruct (Z.leb_spec (ystart + 1) e), (Z.leb_spec ystart e),
        (Z.ltb_spec e (ystart + 1 + Z.of_nat (List.length s))),
        (Z.ltb_spec e (ystart + Z.of_nat (S (List.length s))));
        simpl; try reflexivity; try lia.
      f_equal. lia.
Qed.

Section RecoveryCounts.

Variable series : list (Date * Q).
Variable y0 : Z.
Variable m : cell.

Hypothesis Hends : forall i d r,
  nth_error series i = Some (d, r) -> d = year_end (y0 + Z.of_nat i).

Let n := List.length series.

Lemma series_index_yearly : year_ends_from y0 (map fst series).
Proof.
  intros j d Hj. rewrite nth_error_map in Hj.
  destruct (nth_error series j) as [[d' r]|] eqn:E; [|discriminate].
  injection Hj as <-. eapply Hends; eauto.
Qed.

Lemma return_at_snd (i : nat) (r : Q) :
  nth_error (map snd series) i = Some r <-> return_at series i = Some r.
Proof.
  unfold return_at. rewrite nth_error_map. reflexivity.
Qed.

Lemma return_at_None (i : nat) : (n <= i)%nat -> return_at series i = None.
Proof.
  intros Hi. unfold return_at.
  replace (nth_error series i) with (@None (Date * Q)); [reflexivity|].
  symmetry. now apply nth_error_None.
Qed.

Lemma return_at_Some (i : nat) :
  (i < n)%nat -> exists r, return_at series i = Some r.
Proof.
  intros Hi. unfold return_at.
  destruct (nth_error series i) as [[d r]|] eqn:E; simpl; [eauto|].
  apply nth_error_None in E. fold n in E. lia.
Qed.

(** One pass of the loop adds to each counter the indicator of its
    condition. *)
Lemma estimate_body_yearly (st : counters) (p : Z * Z) :
  exists nyr,
    estimate_body series m st p =
    Ok (mkCounters
          (if next_year_exceeds series m p
           then S (count_next_year_exceeds st) else count_next_year_exceeds st)
          (if next_two_years_exceed series m p
           then S (count_next_two_years_exceeds st)
           else count_next_two_years_exceeds st)
          nyr).
Proof.
  destruct p as [start e]. destruct st as [c1 c2 nyr0].
  unfold estimate_body, next_two_years_exceed, next_year_exceeds.
  cbn [snd count_next_year_exceeds count_next_two_years_exceeds].
  rewrite (find_year_from series y0 e 0 Hends). fold n.
  pose proof series_index_yearly as Hidx.
  assert (Hlen : List.length (map fst series) = n) by apply length_map.
  destruct ((y0 <=? e) && (e <? y0 + Z.of_nat n)) eqn:Hrange.
  - (* the end year is a year of the series *)
    apply andb_true_iff in Hrange. destruct Hrange as (Hlo & Hhi).
    apply Z.leb_le in Hlo. apply Z.ltb_lt in Hhi.
    set (k := Z.to_nat (e - y0)).
    assert (Hk : (k < n)%nat) by (unfold k; lia).
    rewrite (get_loc_nearest_exact _ y0 e Hidx) by (rewrite Hlen; lia).
    fold k. simpl Nat.add.
    replace (Z.of_nat k <? Z.of_nat n) with true by (symmetry; apply Z.ltb_lt; lia).
    destruct (nth_error (map fst series) k) as [d|] eqn:Ed;
      [|apply nth_error_None in Ed; lia].
    rewrite (py_getitem_nth _ _ _ Ed). cbn [bind].
    rewrite (Hidx k d Ed). cbn [year year_end].
    replace (y0 + Z.of_nat k =? e) with true by (symmetry; apply Z.eqb_eq; lia).
    unfold exceeds_at.
    destruct (Z.ltb_spec (Z.of_nat k + 1) (Z.of_nat n)) as [H1|H1].
    + destruct (return_at_Some (k + 1)) as (r1 & Hr1); [lia|].
      rewrite Hr1.
      rewrite (py_getitem_offset _ k 1 r1) by (try lia; now apply return_at_snd).
      cbn [bind next_year_return count_next_year_exceeds
             count_next_two_years_exceeds].
      destruct (Z.ltb_spec (Z.of_nat k + 2) (Z.of_nat n)) as [H2|H2].
      * destruct (return_at_Some (k + 2)) as (r2 & Hr2); [lia|].
        rewrite Hr2.
        rewrite (py_getitem_offset _ k 2 r2) by (try lia; now apply return_at_snd).
        cbn [bind]. exists (Some r1).
        destruct (gt_cell r1 m), (gt_cell r2 m); reflexivity.
      * rewrite (return_at_None (k + 2)) by lia. exists (Some r1).
        rewrite andb_false_r. reflexivity.
    + rewrite (return_at_None (k + 1)) by lia. cbn [bind andb].
      replace (Z.of_nat k + 2 <? Z.of_nat n) with false
        by (symmetry; apply Z.ltb_ge; lia).
      exists nyr0. reflexivity.
  - (* no entry has the end year: the nearest one is refused *)
    cbn [andb]. exists nyr0.
    destruct (get_loc_nearest_cases (map fst series) (year_end e))
      as [->|(loc & -> & Hloc)]; [reflexivity|].
    rewrite Hlen in Hloc.
    replace (Z.of_nat loc <? Z.of_nat n) with true by (symmetry; apply Z.ltb_lt; lia).
    destruct (nth_error (map fst series) loc) as [d|] eqn:Ed;
      [|apply nth_error_None in Ed; lia].
    rewrite (py_getitem_nth _ _ _ Ed). cbn [bind].
    rewrite (Hidx loc d Ed). cbn [year year_end].
    replace (y0 + Z.of_nat loc =? e) with false; [reflexivity|].
    symmetry. apply Z.eqb_neq. intros He.
    apply andb_false_iff in Hrange. destruct Hrange as [H|H].
    + apply Z.leb_gt in H. lia.
    + apply Z.ltb_ge in H. lia.
Qed.

Lemma count_recoveries_from (ps : list (Z * Z)) (st : counters) :
  exists nyr,
    for_each (estimate_body series m) ps st =
    Ok (mkCounters
          (count_next_year_exceeds st
           + List.length (filter (next_year_exceeds series m) ps))
          (count_next_two_years_exceeds st
           + List.length (filter (next_two_years_exceed series m) ps))
          nyr).
Proof.
  revert st. induction ps as [|p ps IH]; intros st.
  - exists (next_year_return st). simpl. rewrite !Nat.add_0_r.
    now destruct st.
  - destruct (estimate_body_yearly st p) as (nyr1 & Hbody).
    cbn [for_each]. rewrite Hbody. cbn [bind].
    destruct (IH (mkCounters
          (if next_year_exceeds series m p
           then S (count_next_year_exceeds st) else count_next_year_exceeds st)
          (if next_two_years_exceed series m p
           then S (count_next_two_years_exceeds st)
           else count_next_two_years_exceeds st)
          nyr1)) as (nyr & ->).
    exists nyr. cbn [count_next_year_exceeds count_next_two_years_exceeds filter].
    destruct (next_year_exceeds series m p), (next_two_years_exceed series m p);
      cbn [List.length]; f_equal; f_equal; lia.
Qed.

(** The probabilities are the two counts over the number of periods. *)
Lemma estimate_yearly (ps : list (Z * Z)) :
  estimate series m ps =
  Ok (ratio (List.length (filter (next_year_exceeds series m) ps)) (List.length ps),
      ratio (List.length (filter (next_two_years_exceed series m) ps))
            (List.length ps)).
Proof.
  unfold estimate, count_recoveries.
  destruct (count_recoveries_from ps (mkCounters 0 0 None)) as (nyr & ->).
  reflexivity.
Qed.

End RecoveryCounts.

(** ** Price series *)

Lemma date_ltb_iff (a b : Date) :
  date_ltb a b = true <->
  year a < year b
  \/ (year a = year b
      /\ (month a < month b \/ (month a = month b /\ day a < day b))).
Proof.
  unfold date_ltb.
  rewrite orb_true_iff, andb_true_iff, orb_true_iff, andb_true_iff,
    !Z.ltb_lt, !Z.eqb_eq. reflexivity.
Qed.

Lemma date_leb_iff (a b : Date) :
  date_leb a b = true <-> date_ltb a b = true \/ a = b.
Proof.
  unfold date_leb. now rewrite orb_true_iff, date_eqb_eq.
Qed.

Lemma date_lt_trans (a b c : Date) : date_lt a b -> date_lt b c -> date_lt a c.
Proof.
  unfold date_lt. rewrite !date_ltb_iff. lia.
Qed.

Lemma increasing_sorted (idx : list Date) :
  increasing idx = true -> StronglySorted date_lt idx.
Proof.
  intros H. apply Sorted_StronglySorted.
  - intros a b c. apply date_lt_trans.
  - induction idx as [|a rest IH]; [constructor|].
    destruct rest as [|b rest]; [repeat constructor|].
    cbn [increasing] in H. apply andb_true_iff in H. destruct H as (Hab & Hrest).
    constructor; [now apply IH | constructor; exact Hab].
Qed.

Lemma last_default {A : Type} (x : A) (l : list A) (d d' : A) :
  last (x :: l) d = last (x :: l) d'.
Proof.
  revert x. induction l as [|y l IH]; intros x; [reflexivity|].
  change (last (y :: l) d = last (y :: l) d'). apply IH.
Qed.

Lemma sorted_before (pre post : list Date) (d : Date) :
  StronglySorted date_lt (pre ++ d :: post) ->
  forall x, In x pre -> date_lt x d.
Proof.
  induction pre as [|a pre IH]; intros H x Hx; [contradiction|].
  simpl in H. apply StronglySorted_inv in H. destruct H as (Hs & Ha).
  destruct Hx as [<-|Hx]; [|now apply IH].
  rewrite Forall_forall in Ha. apply Ha, in_or_app. right. now left.
Qed.

Lemma increasing_years (d0 : Date) (rest : list Date) :
  increasing (d0 :: rest) = true -> year d0 <= year (last (d0 :: rest) d0).
Proof.
  revert d0. induction rest as [|d1 rest IH]; intros d0 H; [simpl; lia|].
  cbn [increasing] in H. apply andb_true_iff in H. destruct H as (Hlt & Hrest).
  apply date_ltb_iff in Hlt. specialize (IH d1 Hrest).
  change (last (d0 :: d1 :: rest) d0) with (last (d1 :: rest) d0).
  rewrite (last_default d1 rest d0 d1). lia.
Qed.

(** ** Forward fill *)

Lemma map_fst_combine {A B : Type} (l : list A) (l' : list B) :
  List.length l = List.length l' -> map fst (combine l l') = l.
Proof.
  revert l'. induction l as [|a l IH]; intros [|b l'] H; simpl in *;
    try discriminate; [reflexivity|].
  f_equal. apply IH. lia.
Qed.

Lemma in_combine_exists {A B : Type} (l : list A) (l' : list B) (a : A) :
  List.length l = List.length l' -> In a l -> exists b, In (a, b) (combine l l').
Proof.
  revert l'. induction l as [|x l IH]; intros [|b l'] H Ha; simpl in *;
    try discriminate; [contradiction|].
  destruct Ha as [->|Ha].
  - exists b. now left.
  - destruct (IH l') as (b' & Hb'); [lia | exact Ha |]. exists b'. now right.
Qed.

Lemma last_combine {A B : Type} (l : list A) (l' : list B) (a : A) (b : B) :
  List.length l = List.length l' -> fst (last (combine l l') (a, b)) = last l a.
Proof.
  revert l'. induction l as [|x l IH]; intros [|y l'] H; simpl in *;
    try discriminate; [reflexivity|].
  destruct l as [|x' l]; destruct l' as [|y' l']; simpl in *;
    try discriminate; [reflexivity|].
  apply (IH (y' :: l')). simpl. lia.
Qed.

(** The fold of [ffill_at] stops on the last row at or before the label. *)
Lemma ffill_fold (s : Series) (label : Date) (acc : cell) :
  let r := fold_left
             (fun acc row => if date_leb (fst row) label then snd row else acc)
             s acc in
  (r = acc /\ forall row, In row s -> date_leb (fst row) label = false)
  \/ (exists pre d post,
        s = pre ++ (d, r) :: post
        /\ date_leb d label = true
        /\ forall row, In row post -> date_leb (fst row) label = false).
Proof.
  revert acc. induction s as [|[d c] s IH]; intros acc; cbn zeta.
  - left. split; [reflexivity | intros row []].
  - cbn [fold_left fst snd].
    destruct (IH (if date_leb d label then c else acc)) as [(Hr & Hall)|Hex];
      cbn zeta in *.
    + destruct (date_leb d label) eqn:Ed.
      * right. exists [], d, s. rewrite Hr. repeat split; auto.
      * left. split; [exact Hr|]. intros row [<-|Hrow]; [exact Ed | now apply Hall].
    + right. destruct Hex as (pre & d' & post & Hs & Hd' & Hpost).
      exists ((d, c) :: pre), d', post. split; [|split; assumption].
      simpl. f_equal. exact Hs.
Qed.

Lemma ffill_at_latest (idx : list Date) (cells : list cell) (label : Date) :
  increasing idx = true ->
  List.length idx = List.length cells ->
  (exists d, In d idx /\ date_leb d label = true) ->
  exists d,
    In (d, ffill_at (combine idx cells) label) (combine idx cells)
    /\ date_leb d label = true
    /\ forall d' c', In (d', c') (combine idx cells) ->
                     date_leb d' label = true -> date_leb d' d = true.
Proof.
  intros Hinc Hlen (d1 & Hd1 & Hle1).
  destruct (ffill_fold (combine idx cells) label None) as [(_ & Hall)|Hex];
    cbn zeta in *.
  - destruct (in_combine_exists idx cells d1 Hlen Hd1) as (c1 & Hc1).
    specialize (Hall _ Hc1). simpl in Hall. congruence.
  - destruct Hex as (pre & d & post & Hs & Hd & Hpost).
    fold (ffill_at (combine idx cells) label) in Hs.
    exists d. split; [rewrite Hs at 2; apply in_or_app; right; now left|].
    split; [exact Hd|].
    intros d' c' Hin Hle'. rewrite Hs in Hin.
    apply in_app_or in Hin. destruct Hin as [Hin|[Hin|Hin]].
    + apply date_leb_iff. left.
      apply (sorted_before (map fst pre) (map fst post) d).
      * replace (map fst pre ++ d :: map fst post) with idx;
          [now apply increasing_sorted|].
        rewrite <- (map_fst_combine idx cells Hlen), Hs, map_app. reflexivity.
      * apply (in_map fst) in Hin. exact Hin.
    + injection Hin as <- _. apply date_leb_iff. now right.
    + specialize (Hpost _ Hin). simpl in Hpost. congruence.
Qed.

Lemma positive_cells (idx : list Date) (cells : list cell) (d : Date) (c : cell) :
  forallb positive_cell cells = true ->
  In (d, c) (combine idx cells) -> exists q, c = Some q /\ (0 < q)%Q.
Proof.
  intros Hpos Hin. apply in_combine_r in Hin.
  rewrite forallb_forall in Hpos. specialize (Hpos c Hin).
  destruct c as [q|]; [|discriminate]. exists q. split; [reflexivity|].
  simpl in Hpos. apply negb_true_iff in Hpos.
  apply Qnot_le_lt. intros Hle. apply Qle_bool_iff in Hle. congruence.
Qed.

Lemma valid_date_before_year_end (d : Date) (y : Z) :
  valid_dateb d = true -> year d <= y -> date_leb d (year_end y) = true.
Proof.
  unfold valid_dateb. rewrite !andb_true_iff, !Z.leb_le.
  intros (((Hm1 & Hm12) & Hd1) & Hd) Hy.
  assert (Hdim : days_in_month (year d) (month d) <= 31).
  { unfold days_in_month.
    destruct (month d =? 2); [destruct (is_leap (year d)); lia|].
    destruct ((month d =? 4) || (month d =? 6) || (month d =? 9) || (month d =? 11));
      lia. }
  apply date_leb_iff. rewrite date_ltb_iff. cbn [year_end year month day].
  destruct (Z.eq_dec (year d) y) as [Ey|Ey]; [|left; lia].
  destruct (Z.eq_dec (month d) 12) as [Em|Em]; [|left; lia].
  destruct (Z.eq_dec (day d) 31) as [Ed|Ed]; [|left; lia].
  right. destruct d as [yy mm dd]. simpl in *. subst. reflexivity.
Qed.

(** ** Returns of a resampled series *)

Lemma ffill_na_some (prev : cell) (l : list Q) :
  ffill_na prev (map Some l) = map Some l.
Proof.
  revert prev. induction l as [|q l IH]; intros prev; simpl; [reflexivity|].
  now rewrite IH.
Qed.

Lemma returns_from (g : nat -> Date) (f : nat -> Q) (n k : nat) :
  dropna (combine (map g (seq (S k) n))
                  (shift_ratio (Some (f k)) (map Some (map f (seq (S k) n)))))
  = map (fun i => (g (S i), (f (S i) / f i - 1)%Q)) (seq k n).
Proof.
  revert k. induction n as [|n IH]; intros k; [reflexivity|].
  cbn [seq map shift_ratio ratio_minus_one combine dropna].
  f_equal. apply IH.
Qed.

(** The returns of [n + 1] periods with closes [f k], [f (k + 1)], ...: the
    first period has none and is dropped. *)
Lemma returns_closed_form (g : nat -> Date) (f : nat -> Q) (k n : nat) :
  dropna (pct_change (map (fun i => (g i, Some (f i))) (seq k (S n))))
  = map (fun i => (g (S i), (f (S i) / f i - 1)%Q)) (seq k n).
Proof.
  unfold pct_change. rewrite !map_map. cbn [fst snd].
  rewrite <- (map_map f Some), ffill_na_some.
  cbn [seq map shift_ratio ratio_minus_one combine dropna].
  apply returns_from.
Qed.

(** ** The yearly return series of a price series *)

Lemma lookup_column_In (n : string) (cols : list (string * list cell)) (c : list cell) :
  lookup_column n cols = Ok c -> exists n', In (n', c) cols.
Proof.
  induction cols as [|[k x] cols IH]; simpl; [discriminate|].
  destruct (String.eqb k n).
  - intros H. injection H as <-. exists k. now left.
  - intros H. destruct (IH H) as (n' & Hn'). exists n'. now right.
Qed.

Lemma price_series_close (df : DataFrame) :
  price_series df ->
  exists c,
    lookup_column "Close" (columns df) = Ok c
    /\ List.length (index df) = List.length c
    /\ forallb positive_cell c = true
    /\ increasing (index df) = true
    /\ forallb valid_dateb (index df) = true.
Proof.
  unfold price_series, is_price_series. rewrite !andb_true_iff.
  intros (((Hinc & Hvalid) & Hcols) & Hclose).
  destruct (lookup_column "Close" (columns df)) as [c|] eqn:Hc; [|discriminate].
  exists c. repeat split; auto.
  destruct (lookup_column_In _ _ _ Hc) as (n' & Hin).
  rewrite forallb_forall in Hcols. specialize (Hcols _ Hin). simpl in Hcols.
  apply Nat.eqb_eq in Hcols. now symmetry.
Qed.

Lemma resample_ffill_cons (key : Date -> Z) (period_end : Z -> Date)
  (s : Series) (d0 : Date) (c0 : cell) (s' : Series) :
  s = (d0, c0) :: s' ->
  resample_ffill key period_end s
  = map (fun k => (period_end k, ffill_at s (period_end k)))
        (Zrange (key d0) (key (fst (last s (d0, None))))).
Proof. intros ->. reflexivity. Qed.

Section YearlyReturns.

Variable idx : list Date.
Variable cells : list cell.
Variable d0 : Date.
Variable rest : list Date.

Hypothesis Hidx : idx = d0 :: rest.
Hypothesis Hlen : List.length idx = List.length cells.
Hypothesis Hpos : forallb positive_cell cells = true.
Hypothesis Hinc : increasing idx = true.
Hypothesis Hvalid : forallb valid_dateb idx = true.

Let close := combine idx cells.
Let a := year d0.
Let b := year (last idx d0).

Lemma first_last_year : a <= b.
Proof.
  unfold a, b. rewrite Hidx. apply increasing_years. now rewrite <- Hidx.
Qed.

(** From the first year on, the forward fill finds a close: that of the
    latest row on or before 31 December. *)
Lemma yearly_close_latest (y : Z) :
  a <= y ->
  exists d,
    ffill_at close (year_end y) = Some (yearly_close close y)
    /\ (0 < yearly_close close y)%Q
    /\ In (d, Some (yearly_close close y)) close
    /\ date_leb d (year_end y) = true
    /\ forall d' c', In (d', c') close -> date_leb d' (year_end y) = true ->
                     date_leb d' d = true.
Proof.
  intros Hy.
  destruct (ffill_at_latest idx cells (year_end y) Hinc Hlen) as (d & Hin & Hle & Hmax).
  { exists d0. split; [rewrite Hidx; now left|].
    apply valid_date_before_year_end; [|exact Hy].
    rewrite forallb_forall in Hvalid. apply Hvalid. rewrite Hidx. now left. }
  fold close in Hin, Hmax.
  destruct (positive_cells idx cells d _ Hpos Hin) as (q & Hq & Hq0).
  assert (Eq : yearly_close close y = q) by (unfold yearly_close; now rewrite Hq).
  exists d. rewrite Eq.
  split; [exact Hq|]. split; [exact Hq0|].
  split; [now rewrite <- Hq|]. split; [exact Hle | exact Hmax].
Qed.

Lemma yearly_returns_closed_form :
  returns_of year_key year_end close
  = map (fun i => (year_end (a + Z.of_nat (S i)),
                   (yearly_close close (a + Z.of_nat (S i))
                    / yearly_close close (a + Z.of_nat i) - 1)%Q))
        (seq 0 (Z.to_nat (b - a))).
Proof.
  pose proof first_last_year as Hab.
  assert (Hclose : exists c0 s', close = (d0, c0) :: s').
  { unfold close. rewrite Hidx. rewrite Hidx in Hlen.
    destruct cells as [|c0 cells']; [discriminate|]. simpl. eauto. }
  destruct Hclose as (c0 & s' & Hclose).
  unfold returns_of. rewrite (resample_ffill_cons _ _ close d0 c0 s' Hclose).
  assert (Hl : fst (last close (d0, None)) = last idx d0)
    by (apply last_combine; exact Hlen).
  rewrite Hl. unfold year_key. fold a b. unfold Zrange.
  replace (Z.to_nat (b - a + 1)) with (S (Z.to_nat (b - a))) by lia.
  rewrite map_map.
  rewrite (map_ext_in _ (fun i => (year_end (a + Z.of_nat i),
                                   Some (yearly_close close (a + Z.of_nat i))))).
  - apply (returns_closed_form (fun i => year_end (a + Z.of_nat i))
             (fun i => yearly_close close (a + Z.of_nat i))).
  - intros i _. f_equal.
    destruct (yearly_close_latest (a + Z.of_nat i)) as (d & -> & _); [lia|].
    reflexivity.
Qed.

End YearlyReturns.

Lemma nth_error_map_seq {A : Type} (F : nat -> A) (n i : nat) (x : A) :
  nth_error (map F (seq 0 n)) i = Some x -> x = F i /\ (i < n)%nat.
Proof.
  intros H.
  assert (Hi : (i < n)%nat).
  { rewrite <- (length_seq n 0), <- (length_map F).
    apply nth_error_Some. rewrite H. discriminate. }
  split; [|exact Hi].
  rewrite nth_error_map in H.
  rewrite nth_error_nth' with (d := 0%nat) in H by (rewrite length_seq; exact Hi).
  rewrite seq_nth in H by exact Hi. simpl in H. congruence.
Qed.

Lemma is_yearly_of_ends (idx : list Date) (y0 : Z) :
  year_ends_from y0 idx -> is_yearly idx = true.
Proof.
  revert y0. induction idx as [|d idx IH]; intros y0 H; [reflexivity|].
  apply year_ends_from_tail in H. destruct H as (-> & Htl).
  cbn [is_yearly year year_end].
  rewrite (IH (y0 + 1) Htl), andb_true_r.
  apply andb_true_iff. split; [now apply date_eqb_eq|].
  destruct idx as [|d1 idx]; [reflexivity|].
  rewrite (Htl 0%nat d1 eq_refl). simpl. apply Z.eqb_eq. lia.
Qed.

(** The yearly returns of a price series are indexed by the year ends from
    the second year covered on. *)
Lemma yearly_returns_ends (df : DataFrame) (c : list cell) :
  price_series df ->
  lookup_column "Close" (columns df) = Ok c ->
  exists y0, forall i d r,
    nth_error (returns_of year_key year_end (combine (index df) c)) i = Some (d, r) ->
    d = year_end (y0 + Z.of_nat i).
Proof.
  intros Hdf Hc.
  destruct (price_series_close df Hdf) as (c' & Hc' & Hlen & Hpos & Hinc & Hvalid).
  assert (c' = c) by congruence. subst c'.
  destruct (index df) as [|d0 rest] eqn:Hidx.
  - exists 0. intros [|i] d r H; discriminate.
  - rewrite (yearly_returns_closed_form (d0 :: rest) c d0 rest eq_refl
               Hlen Hpos Hinc Hvalid).
    exists (year d0 + 1). intros i d r H.
    apply nth_error_map_seq in H. destruct H as (H & _).
    injection H as -> _. f_equal. lia.
Qed.

(** ** The analysis of a price series *)

(** On a price series the analysis returns: the yearly returns form a yearly
    series, the scan finds its slumps, and the two probabilities are the
    number of slumps followed by one, respectively two, returns above the
    mean, over the number of slumps. *)
Lemma analyze_price_series (current_year : Z) (df : DataFrame) :
  price_series df ->
  exists c slumps,
    lookup_column "Close" (columns df) = Ok c
    /\ yearly_series (returns_of year_key year_end (combine (index df) c))
    /\ find_slumps (returns_of year_key year_end (combine (index df) c)) = Ok slumps
    /\ analyze_nifty_data current_year df =
       (let yr := returns_of year_key year_end (combine (index df) c) in
        Ok (mkAnalysis yr
              (returns_of month_key month_end (current_year_close current_year df c))
              (ratio (List.length (filter (next_year_exceeds yr (mean yr)) slumps))
                     (List.length slumps))
              (ratio (List.length (filter (next_two_years_exceed yr (mean yr)) slumps))
                     (List.length slumps))
              (mean yr),
            setitem df "Daily_Return" (pct_change (combine (index df) c)))).
Proof.
  intros Hdf.
  destruct (price_series_close df Hdf) as (c & Hc & _).
  destruct (yearly_returns_ends df c Hdf Hc) as (y0 & Hends).
  set (yr := returns_of year_key year_end (combine (index df) c)) in *.
  assert (Hyears : forall i d r,
            nth_error yr i = Some (d, r) -> year d = y0 + Z.of_nat i).
  { intros i d r Hi. now rewrite (Hends i d r Hi). }
  destruct (find_slumps_runs yr y0 Hyears) as (slumps & Hslumps & _).
  exists c, slumps. split; [exact Hc|]. split; [|split; [exact Hslumps|]].
  - apply (is_yearly_of_ends _ y0). now apply series_index_yearly.
  - rewrite (analyze_nifty_data_eq _ _ _ Hc). cbv zeta. fold yr.
    rewrite Hslumps. cbn [bind].
    rewrite (estimate_yearly yr y0 (mean yr) Hends). reflexivity.
Qed.

(** ** The worked scenario *)

Lemma date_leb_valid_year_end (d : Date) (y : Z) :
  valid_dateb d = true -> date_leb d (year_end y) = (year d <=? y).
Proof.
  intros Hd. destruct (Z.leb_spec (year d) y) as [Hy|Hy].
  - now apply valid_date_before_year_end.
  - destruct (date_leb d (year_end y)) eqn:E; [|reflexivity].
    apply date_leb_iff in E. rewrite date_ltb_iff in E. cbn [year_end year] in E.
    destruct E as [E|E]; [lia|]. rewrite E in Hy. cbn [year_end year] in Hy. lia.
Qed.

(** C1.  For a price series with one close per year, 100, 90, 95, 80, 120,
    130 for 2018 to 2023, on whatever day of the year each is dated and
    whatever the current year, the analysis returns five yearly returns, for
    2019 to 2023, equal to -1/10, 1/18, -3/19, 1/2 and 1/12, that is -10%,
    +5.6%, -15.8%, +50% and +8.3%; the slumps of that series are (2019, 2019)
    and (2021, 2021); and both probabilities are 1/2. *)
Theorem scenario_2018_2023 (current_year : Z) (dates : list Date) :
  map year dates = [2018; 2019; 2020; 2021; 2022; 2023] ->
  forallb valid_dateb dates = true ->
  exists out df',
    analyze_nifty_data current_year
      (mkFrame dates (columns closes_2018_2023)) = Ok (out, df')
    /\ map fst (yearly_returns out) = map year_end [2019; 2020; 2021; 2022; 2023]
    /\ Forall2 Qeq (map snd (yearly_returns out))
                   [-1 # 10; 1 # 18; -3 # 19; 1 # 2; 1 # 12]%Q
    /\ Forall2 rounds_to_permille (map snd (yearly_returns out))
                                  [-100; 56; -158; 500; 83]
    /\ find_slumps (yearly_returns out) = Ok [(2019, 2019); (2021, 2021)]
    /\ (probability_next_year_exceeds out == 1 # 2)%Q
    /\ (probability_next_two_years_exceeds out == 1 # 2)%Q.
Proof.
  intros Hyears Hvalid.
  pose (c := map (fun z => Some (inject_Z z)) [100; 90; 95; 80; 120; 130]
             : list cell).
  assert (Hc : lookup_column "Close"
                 (columns (mkFrame dates (columns closes_2018_2023))) = Ok c)
    by reflexivity.
  assert (Hyr : returns_of year_key year_end (combine dates c)
                = yearly_returns analysis_2018_2023).
  { destruct dates as [|d0 [|d1 [|d2 [|d3 [|d4 [|d5 [|d6 rest]]]]]]];
      try discriminate.
    injection Hyears as Y0 Y1 Y2 Y3 Y4 Y5.
    cbn [forallb] in Hvalid. rewrite !andb_true_iff in Hvalid.
    destruct Hvalid as (V0 & V1 & V2 & V3 & V4 & V5 & _).
    unfold returns_of, resample_ffill, c. cbn [map combine last fst].
    unfold year_key. rewrite Y0, Y5.
    change (Zrange 2018 2023) with [2018; 2019; 2020; 2021; 2022; 2023].
    unfold ffill_at. cbn [map fold_left fst snd].
    rewrite !(date_leb_valid_year_end d0), !(date_leb_valid_year_end d1),
      !(date_leb_valid_year_end d2), !(date_leb_valid_year_end d3),
      !(date_leb_valid_year_end d4), !(date_leb_valid_year_end d5) by assumption.
    rewrite Y0, Y1, Y2, Y3, Y4, Y5. vm_compute. reflexivity. }
  assert (Hsl : find_slumps (yearly_returns analysis_2018_2023)
                = Ok [(2019, 2019); (2021, 2021)])
    by (vm_compute; reflexivity).
  assert (Hest : estimate (yearly_returns analysis_2018_2023)
                   (mean (yearly_returns analysis_2018_2023))
                   [(2019, 2019); (2021, 2021)]
                 = Ok ((1 # 2)%Q, (1 # 2)%Q))
    by (vm_compute; reflexivity).
  pose proof (analyze_nifty_data_eq current_year _ _ Hc) as Hrun.
  cbv zeta in Hrun. cbn [index] in Hrun.
  rewrite Hyr, Hsl in Hrun. cbn [bind] in Hrun.
  rewrite Hest in Hrun. cbn [bind fst snd] in Hrun.
  eexists. eexists. split; [exact Hrun|].
  cbn [yearly_returns probability_next_year_exceeds
         probability_next_two_years_exceeds].
  split; [reflexivity|].
  split; [repeat constructor; reflexivity|].
  split; [repeat constructor; apply Qle_bool_iff; reflexivity|].
  split; [exact Hsl|]. split; reflexivity.
Qed.

Lemma scenario_2018_2023_witness :
  exists out df',
    analyze_nifty_data 2024 closes_2018_2023 = Ok (out, df')
    /\ (probability_next_year_exceeds out == 1 # 2)%Q
    /\ (probability_next_two_years_exceeds out == 1 # 2)%Q.
Proof.
  assert (Hyears : map year (index closes_2018_2023)
                   = [2018; 2019; 2020; 2021; 2022; 2023]) by reflexivity.
  assert (Hvalid : forallb valid_dateb (index closes_2018_2023) = true)
    by reflexivity.
  destruct (scenario_2018_2023 2024 (index closes_2018_2023) Hyears Hvalid)
    as (out & df' & Hrun & _ & _ & _ & _ & Hp1 & Hp2).
  exists out, df'. repeat split; assumption.
Defined.

(** ** The mean of an empty series *)

(** C5, as stated, fails: with no yearly return the mean that the analysis
    returns is NaN, not zero. *)
Lemma mean_of_no_returns_is_nan :
  exists out df',
    analyze_nifty_data 2024 single_close = Ok (out, df')
    /\ yearly_returns out = []
    /\ mean_yearly_return out = None
    /\ ~ exists q, mean_yearly_return out = Some q /\ (q == 0)%Q.
Proof.
  eexists. eexists. split; [vm_compute; reflexivity|].
  cbn [yearly_returns mean_yearly_return].
  split; [reflexivity|]. split; [reflexivity|].
  intros (q & Hq & _). discriminate.
Qed.

(** C5, amended.  On every price series the analysis returns without an
    exception; when the yearly return series is empty the mean it returns is
    NaN, and otherwise it is the sum of the returns over their number, which
    is not zero. *)
Theorem mean_yearly_return_defined (current_year : Z) (df : DataFrame) :
  price_series df ->
  exists out df',
    analyze_nifty_data current_year df = Ok (out, df')
    /\ (yearly_returns out = [] -> mean_yearly_return out = None)
    /\ (yearly_returns out <> [] ->
        (0 < List.length (yearly_returns out))%nat
        /\ mean_yearly_return out
           = Some (Qsum (map snd (yearly_returns out))
                   / inject_Z (Z.of_nat (List.length (yearly_returns out))))%Q).
Proof.
  intros Hdf.
  destruct (analyze_price_series current_year df Hdf)
    as (c & slumps & _ & _ & _ & Hrun).
  cbv zeta in Hrun. eexists. eexists. split; [exact Hrun|].
  cbn [yearly_returns mean_yearly_return].
  destruct (returns_of year_key year_end (combine (index df) c)) as [|r yr].
  - split; [reflexivity | congruence].
  - split; [discriminate|]. intros _. split; [simpl; lia | reflexivity].
Qed.

Lemma mean_yearly_return_defined_witness :
  exists out df',
    analyze_nifty_data 2024 single_close = Ok (out, df')
    /\ (yearly_returns out = [] -> mean_yearly_return out = None).
Proof.
  assert (Hdf : price_series single_close) by reflexivity.
  destruct (mean_yearly_return_defined 2024 single_close Hdf)
    as (out & df' & Hrun & Hempty & _).
  exists out, df'. split; assumption.
Defined.

(** ** The ratios *)

Lemma ratio_defined (a n : nat) :
  (0 < n)%nat ->
  ratio a n = (inject_Z (Z.of_nat a) / inject_Z (Z.of_nat n))%Q.
Proof.
  intros Hn. unfold ratio. destruct (Nat.ltb_spec 0 n); [reflexivity | lia].
Qed.

Lemma ratio_no_periods (a : nat) : ratio a 0 = 0%Q.
Proof. reflexivity. Qed.

Lemma ratio_le (a b n : nat) : (a <= b)%nat -> (ratio a n <= ratio b n)%Q.
Proof.
  intros Hab. unfold ratio. destruct (Nat.ltb_spec 0 n); [|apply Qle_refl].
  unfold Qdiv. apply Qmult_le_compat_r.
  - rewrite <- Zle_Qle. lia.
  - apply Qinv_le_0_compat. change 0%Q with (inject_Z 0). rewrite <- Zle_Qle. lia.
Qed.

Lemma ratio_nonneg (a n : nat) : (0 <= ratio a n)%Q.
Proof.
  unfold ratio. destruct (Nat.ltb_spec 0 n); [|apply Qle_refl].
  unfold Qdiv. apply Qmult_le_0_compat.
  - change 0%Q with (inject_Z 0). rewrite <- Zle_Qle. lia.
  - apply Qinv_le_0_compat. change 0%Q with (inject_Z 0). rewrite <- Zle_Qle. lia.
Qed.

Lemma ratio_le_1 (a n : nat) : (a <= n)%nat -> (ratio a n <= 1)%Q.
Proof.
  intros Han. unfold ratio. destruct (Nat.ltb_spec 0 n); [|discriminate].
  apply Qle_shift_div_r.
  - change 0%Q with (inject_Z 0). rewrite <- Zlt_Qlt. lia.
  - rewrite Qmult_1_l, <- Zle_Qle. lia.
Qed.

Lemma filter_length_mono {A : Type} (f g : A -> bool) (l : list A) :
  (forall x, g x = true -> f x = true) ->
  (List.length (filter g l) <= List.length (filter f l))%nat.
Proof.
  intros Hgf. induction l as [|x l IH]; simpl; [lia|].
  destruct (g x) eqn:Eg.
  - rewrite (Hgf x Eg). simpl. lia.
  - destruct (f x); simpl; lia.
Qed.

(** ** Bounds on the probabilities *)

(** C6.  On every price series the analysis returns, both probabilities lie
    between 0 and 1, and the two-year probability is at most the one-year
    probability. *)
Theorem probabilities_bounded (current_year : Z) (df : DataFrame) :
  price_series df ->
  exists out df',
    analyze_nifty_data current_year df = Ok (out, df')
    /\ (0 <= probability_next_year_exceeds out <= 1)%Q
    /\ (0 <= probability_next_two_years_exceeds out <= 1)%Q
    /\ (probability_next_two_years_exceeds out
        <= probability_next_year_exceeds out)%Q.
Proof.
  intros Hdf.
  destruct (analyze_price_series current_year df Hdf)
    as (c & slumps & _ & _ & _ & Hrun).
  cbv zeta in Hrun. eexists. eexists. split; [exact Hrun|].
  cbn [probability_next_year_exceeds probability_next_two_years_exceeds].
  split; [|split].
  - split; [apply ratio_nonneg | apply ratio_le_1, filter_length_le].
  - split; [apply ratio_nonneg | apply ratio_le_1, filter_length_le].
  - apply ratio_le, filter_length_mono. intros p Hp.
    unfold next_two_years_exceed in Hp. apply andb_true_iff in Hp. tauto.
Qed.

Lemma probabilities_bounded_witness :
  exists out df',
    analyze_nifty_data 2024 closes_2018_2023 = Ok (out, df')
    /\ (probability_next_two_years_exceeds out
        <= probability_next_year_exceeds out)%Q.
Proof.
  assert (Hdf : price_series closes_2018_2023) by reflexivity.
  destruct (probabilities_bounded 2024 closes_2018_2023 Hdf)
    as (out & df' & Hrun & _ & _ & Hle).
  exists out, df'. split; assumption.
Defined.

(** ** The denominator of the probabilities *)

(** C3.  On every price series the analysis returns, and when the scan finds
    at least one slump, each probability is the number of slumps whose
    condition holds over the number of all the slumps found; a slump that
    ends at the last year of the yearly return series is one of the slumps
    counted below the line, and neither condition holds for it. *)
Theorem denominator_is_slump_count (current_year : Z) (df : DataFrame) :
  price_series df ->
  exists out df' slumps,
    analyze_nifty_data current_year df = Ok (out, df')
    /\ find_slumps (yearly_returns out) = Ok slumps
    /\ (slumps <> [] ->
        probability_next_year_exceeds out
        = (inject_Z (Z.of_nat (List.length
             (filter (next_year_exceeds (yearly_returns out)
                        (mean_yearly_return out)) slumps)))
           / inject_Z (Z.of_nat (List.length slumps)))%Q
        /\ probability_next_two_years_exceeds out
           = (inject_Z (Z.of_nat (List.length
                (filter (next_two_years_exceed (yearly_returns out)
                           (mean_yearly_return out)) slumps)))
              / inject_Z (Z.of_nat (List.length slumps)))%Q)
    /\ (forall p d r,
          In p slumps ->
          last_error (yearly_returns out) = Some (d, r) ->
          snd p = year d ->
          next_year_exceeds (yearly_returns out) (mean_yearly_return out) p = false
          /\ next_two_years_exceed (yearly_returns out) (mean_yearly_return out) p
             = false).
Proof.
  intros Hdf.
  destruct (analyze_price_series current_year df Hdf)
    as (c & slumps & _ & Hyearly & Hslumps & Hrun).
  cbv zeta in Hrun. eexists. eexists. exists slumps. split; [exact Hrun|].
  cbn [yearly_returns mean_yearly_return probability_next_year_exceeds
         probability_next_two_years_exceeds].
  set (yr := returns_of year_key year_end (combine (index df) c)) in *.
  split; [exact Hslumps|]. split.
  - intros Hne.
    assert (Hpos : (0 < List.length slumps)%nat).
    { destruct slumps; [congruence | simpl; lia]. }
    split; now apply ratio_defined.
  - intros p d r _ Hlast Hend.
    destruct (yearly_series_years yr Hyearly) as (y0 & Hends).
    assert (Hnext : next_year_exceeds yr (mean yr) p = false).
    { unfold next_year_exceeds, last_error in *.
      rewrite (find_year_from yr y0 (snd p) 0 Hends).
      destruct ((y0 <=? snd p) && (snd p <? y0 + Z.of_nat (List.length yr)));
        [|reflexivity].
      unfold exceeds_at. rewrite return_at_None; [reflexivity|].
      rewrite Hend, (Hends _ _ _ Hlast). cbn [year year_end].
      assert (0 < List.length yr)%nat by (destruct yr; [discriminate | simpl; lia]).
      lia. }
    split; [exact Hnext|].
    unfold next_two_years_exceed. now rewrite Hnext.
Qed.

Lemma denominator_is_slump_count_witness :
  exists out df' slumps,
    analyze_nifty_data 2024 closes_2018_2023 = Ok (out, df')
    /\ find_slumps (yearly_returns out) = Ok slumps
    /\ slumps <> []
    /\ probability_next_year_exceeds out
       = (inject_Z (Z.of_nat (List.length
            (filter (next_year_exceeds (yearly_returns out)
                       (mean_yearly_return out)) slumps)))
          / inject_Z (Z.of_nat (List.length slumps)))%Q.
Proof.
  assert (Hdf : price_series closes_2018_2023) by reflexivity.
  destruct (denominator_is_slump_count 2024 closes_2018_2023 Hdf)
    as (out & df' & slumps & Hrun & Hslumps & Hratio & _).
  exists out, df', slumps.
  assert (Hne : slumps <> []).
  { pose proof analyze_closes_2018_2023 as Hex. rewrite Hrun in Hex.
    injection Hex as -> _. vm_compute in Hslumps. injection Hslumps as <-.
    discriminate. }
  split; [exact Hrun|]. split; [exact Hslumps|]. split; [exact Hne|].
  exact (proj1 (Hratio Hne)).
Defined.

(** ** Empty and one-row series *)




(** ** Length and values of the yearly return series *)

Lemma sorted_last (l : list Date) (d d0 : Date) :
  StronglySorted date_lt l -> In d l -> d = last l d0 \/ date_lt d (last l d0).
Proof.
  intros Hs Hd. destruct l as [|x l0]; [contradiction|].
  destruct (@exists_last _ (x :: l0)) as (l' & z & E); [discriminate|].
  rewrite E in *. rewrite last_last.
  apply in_app_or in Hd. destruct Hd as [Hd|[<-|[]]]; [right | now left].
  now apply (sorted_before l' [] z).
Qed.

Lemma Zrange_In (a b y : Z) : In y (Zrange a b) <-> a <= y <= b.
Proof.
  unfold Zrange. rewrite in_map_iff. split.
  - intros (i & <- & Hi). apply in_seq in Hi. lia.
  - intros Hy. exists (Z.to_nat (y - a)). split; [lia|]. apply in_seq. lia.
Qed.






(** ** Slumps whose end year is not found *)

(** The loop over the periods returns on every series and every list of
    periods: the only exception of the lookup is caught, the positions read
    are in range, and [next_year_return] is bound when it is read. *)
Lemma estimate_body_total (s : list (Date * Q)) (m : cell) (st : counters) (p : Z * Z) :
  exists st', estimate_body s m st p = Ok st'.
Proof.
  unfold estimate_body.
  destruct (get_loc_nearest_cases (map fst s) (year_end (snd p)))
    as [->|(loc & -> & Hloc)]; [eauto|].
  rewrite length_map in Hloc.
  replace (Z.of_nat loc <? Z.of_nat (List.length s)) with true
    by (symmetry; apply Z.ltb_lt; lia).
  destruct (nth_error (map fst s) loc) as [d|] eqn:Ed;
    [|apply nth_error_None in Ed; rewrite length_map in Ed; lia].
  rewrite (py_getitem_nth _ _ _ Ed). cbn [bind].
  destruct (year d =? snd p); [|eauto].
  assert (Hget : forall j, 0 <= j -> Z.of_nat loc + j < Z.of_nat (List.length s) ->
            exists r, py_getitem (map snd s) (Z.of_nat loc + j) = Ok r).
  { intros j Hj Hlt.
    destruct (nth_error (map snd s) (loc + Z.to_nat j)) as [r|] eqn:Er.
    - exists r. now apply py_getitem_offset.
    - apply nth_error_None in Er. rewrite length_map in Er. lia. }
  destruct (Z.ltb_spec (Z.of_nat loc + 1) (Z.of_nat (List.length s))) as [H1|H1].
  - destruct (Hget 1) as (r1 & ->); [lia | exact H1 |]. cbn [bind next_year_return].
    destruct (Z.ltb_spec (Z.of_nat loc + 2) (Z.of_nat (List.length s))) as [H2|H2];
      [|eauto].
    destruct (Hget 2) as (r2 & ->); [lia | exact H2 |]. cbn [bind]. eauto.
  - cbn [bind].
    replace (Z.of_nat loc + 2 <? Z.of_nat (List.length s)) with false
      by (symmetry; apply Z.ltb_ge; lia).
    eauto.
Qed.

Lemma count_recoveries_total (s : list (Date * Q)) (m : cell) (ps : list (Z * Z))
  (st : counters) :
  exists c, for_each (estimate_body s m) ps st = Ok c.
Proof.
  revert st. induction ps as [|p ps IH]; intros st; simpl; [eauto|].
  destruct (estimate_body_total s m st p) as (st' & ->). cbn [bind]. apply IH.
Qed.

(** A period whose lookup misses leaves the counters as they are. *)
Lemma estimate_body_miss (s : list (Date * Q)) (m : cell) (st : counters) (p : Z * Z) :
  lookup_misses s (snd p) -> estimate_body s m st p = Ok st.
Proof.
  intros (_ & y & Hy & Hne). unfold nearest_entry_year in Hy.
  unfold estimate_body.
  destruct (get_loc_nearest (map fst s) (year_end (snd p))) as [loc|e];
    [|discriminate].
  destruct (nth_error s loc) as [[d r]|] eqn:Eloc; [|discriminate].
  simpl in Hy. injection Hy as <-.
  assert (Hloc : (loc < List.length s)%nat).
  { apply nth_error_Some. rewrite Eloc. discriminate. }
  replace (Z.of_nat loc <? Z.of_nat (List.length s)) with true
    by (symmetry; apply Z.ltb_lt; lia).
  assert (Ed : nth_error (map fst s) loc = Some d).
  { rewrite nth_error_map, Eloc. reflexivity. }
  rewrite (py_getitem_nth _ _ _ Ed). cbn [bind].
  replace (year d =? snd p) with false by (symmetry; now apply Z.eqb_neq).
  reflexivity.
Qed.

(** The loop taken alone, on a list of periods that the scan would not
    give it: a period whose lookup misses stays in the denominator.  With
    the period (2010, 2010) in the list the one-year ratio is 1/2; without
    it, it is 1. *)
Lemma missed_slump_stays_in_denominator :
  lookup_misses returns_2019_2020 2010
  /\ exists p q,
       estimate returns_2019_2020 (mean returns_2019_2020)
         [(2010, 2010); (2019, 2019)] = Ok p
       /\ estimate returns_2019_2020 (mean returns_2019_2020)
            [(2019, 2019)] = Ok q
       /\ (fst p == 1 # 2)%Q /\ (fst q == 1)%Q /\ ~ (fst p == fst q)%Q.
Proof.
  split.
  - split.
    + simpl. intros [H|[H|[]]]; discriminate.
    + exists 2019. split; [vm_compute; reflexivity | discriminate].
  - eexists. eexists. split; [vm_compute; reflexivity|].
    split; [vm_compute; reflexivity|]. cbn [fst].
    split; [reflexivity|]. split; [reflexivity|]. intros H. discriminate.
Qed.

(** The loop on any list of periods.  A period whose end year has no entry
    dated 31 December and whose nearest entry is of another year adds
    nothing to either count: the counts are those of the list without it.
    It stays in the denominator, which is the length of the whole list of
    periods.  The analysis never hands the loop such a period, see
    [detected_slump_is_found] below. *)
Lemma missed_slump_counts_as_failure (s : list (Date * Q)) (m : cell)
  (before after : list (Z * Z)) (p : Z * Z) :
  lookup_misses s (snd p) ->
  exists c,
    count_recoveries s m (before ++ after) = Ok c
    /\ count_recoveries s m (before ++ p :: after) = Ok c
    /\ estimate s m (before ++ p :: after)
       = Ok (ratio (count_next_year_exceeds c)
                   (S (List.length (before ++ after))),
             ratio (count_next_two_years_exceeds c)
                   (S (List.length (before ++ after)))).
Proof.
  intros Hmiss.
  destruct (count_recoveries_total s m (before ++ after) (mkCounters 0 0 None))
    as (c & Hc).
  assert (Hsame : count_recoveries s m (before ++ p :: after) = Ok c).
  { unfold count_recoveries in *. rewrite for_each_app in *.
    destruct (for_each (estimate_body s m) before (mkCounters 0 0 None))
      as [st|e]; [|discriminate].
    cbn [bind for_each] in *. rewrite (estimate_body_miss s m st p Hmiss).
    exact Hc. }
  exists c. split; [exact Hc|]. split; [exact Hsame|].
  unfold estimate. rewrite Hsame. cbn [bind].
  rewrite !length_app. cbn [List.length]. rewrite Nat.add_succ_r. reflexivity.
Qed.

Lemma missed_slump_counts_as_failure_witness :
  exists c,
    count_recoveries returns_2019_2020 (mean returns_2019_2020) [(2019, 2019)]
    = Ok c
    /\ estimate returns_2019_2020 (mean returns_2019_2020)
         [(2010, 2010); (2019, 2019)]
       = Ok (ratio (count_next_year_exceeds c) 2,
             ratio (count_next_two_years_exceeds c) 2).
Proof.
  assert (Hmiss : lookup_misses returns_2019_2020 (snd (2010, 2010))).
  { split.
    - simpl. intros [H|[H|[]]]; discriminate.
    - exists 2019. split; [vm_compute; reflexivity | discriminate]. }
  destruct (missed_slump_counts_as_failure returns_2019_2020
              (mean returns_2019_2020) [] [(2019, 2019)] (2010, 2010) Hmiss)
    as (c & Hc & _ & Hest).
  exists c. split; [exact Hc | exact Hest].
Defined.

(** Inside the analysis the lookup never misses: the end year of a slump
    that the scan finds in a yearly series has its entry in that series. *)
Lemma detected_slump_is_found (s : list (Date * Q)) (slumps : list (Z * Z)) (p : Z * Z) :
  yearly_series s -> find_slumps s = Ok slumps -> In p slumps ->
  ~ lookup_misses s (snd p).
Proof.
  intros Hs Hslumps Hp (Hnot & _). apply Hnot. clear Hnot.
  destruct (yearly_series_years s Hs) as (y0 & Hends).
  assert (Hyears : forall i d r,
            nth_error s i = Some (d, r) -> year d = y0 + Z.of_nat i).
  { intros i d r Hi. now rewrite (Hends i d r Hi). }
  destruct (find_slumps_runs s y0 Hyears) as (ps & Hrun & _ & Hmax & _).
  assert (ps = slumps) by congruence. subst ps.
  destruct (Hmax p Hp) as (Hle & Hall & _).
  destruct (Hall (snd p)) as (Hrange & _); [lia|].
  destruct (nth_error s (Z.to_nat (snd p - y0))) as [[d r]|] eqn:E.
  - rewrite (Hends _ _ _ E) in E.
    replace (y0 + Z.of_nat (Z.to_nat (snd p - y0))) with (snd p) in E by lia.
    apply nth_error_In in E. apply (in_map fst) in E. exact E.
  - apply nth_error_None in E. lia.
Qed.

(** ** Exceptions of the analysis *)







(** ** What the results depend on *)



(** X3.  The current year matters to the monthly series only: with another
    current year the analysis of the same frame returns the same yearly
    returns, the same mean and the same two probabilities, and leaves the
    frame in the same state. *)
Theorem current_year_only_in_monthly (year1 year2 : Z) (df : DataFrame)
  (out1 : Analysis) (df' : DataFrame) :
  analyze_nifty_data year1 df = Ok (out1, df') ->
  exists out2,
    analyze_nifty_data year2 df = Ok (out2, df')
    /\ yearly_returns out2 = yearly_returns out1
    /\ mean_yearly_return out2 = mean_yearly_return out1
    /\ probability_next_year_exceeds out2 = probability_next_year_exceeds out1
    /\ probability_next_two_years_exceeds out2
       = probability_next_two_years_exceeds out1.
Proof.
  intros Hrun.
  destruct (analyze_nifty_data_close _ _ _ _ Hrun) as (c & Hc & _).
  rewrite (analyze_nifty_data_eq _ _ _ Hc) in Hrun.
  rewrite (analyze_nifty_data_eq _ _ _ Hc). cbv zeta in *.
  destruct (find_slumps _) as [ps|]; [|discriminate]. cbn [bind] in *.
  destruct (estimate _ _ _) as [p|]; [|discriminate]. cbn [bind] in *.
  injection Hrun as <- <-. eexists. split; [reflexivity|]. repeat split.
Qed.

Lemma current_year_only_in_monthly_witness :
  exists out2,
    analyze_nifty_data 2021 closes_2018_2023 = Ok (out2, frame_2018_2023_after)
    /\ yearly_returns out2 = yearly_returns analysis_2018_2023.
Proof.
  destruct (current_year_only_in_monthly 2024 2021 _ _ _ analyze_closes_2018_2023)
    as (out2 & Hrun & Hyr & _).
  exists out2. split; assumption.
Defined.

(** ** The monthly series without rows of the current year *)

Lemma mask_none {A : Type} (keep : list bool) (l : list A) :
  (forall b, In b keep -> b = false) -> mask keep l = [].
Proof.
  unfold mask. revert l. induction keep as [|b keep IH]; intros l H; [reflexivity|].
  destruct l as [|x l]; [reflexivity|]. simpl.
  rewrite (H b) by now left. apply IH. intros b' Hb'. apply H. now right.
Qed.

(** X4.  When no row of the frame is dated in the current year, which is
    read from the clock and not from the data, the monthly return series is
    empty. *)
Theorem monthly_empty_without_current_rows (current_year : Z) (df : DataFrame)
  (out : Analysis) (df' : DataFrame) :
  analyze_nifty_data current_year df = Ok (out, df') ->
  (forall d, In d (index df) -> year d <> current_year) ->
  monthly_returns_current_year out = [].
Proof.
  intros Hrun Hnone.
  destruct (analyze_nifty_data_close _ _ _ _ Hrun) as (c & Hc & _).
  rewrite (analyze_nifty_data_eq _ _ _ Hc) in Hrun. cbv zeta in Hrun.
  destruct (find_slumps _) as [ps|]; [|discriminate]. cbn [bind] in Hrun.
  destruct (estimate _ _ _) as [p|]; [|discriminate]. cbn [bind] in Hrun.
  injection Hrun as <- _. cbn [monthly_returns_current_year].
  unfold current_year_close. rewrite !mask_none; [reflexivity | |].
  - intros b Hb. apply in_map_iff in Hb. destruct Hb as (d & <- & Hd).
    apply Z.eqb_neq. now apply Hnone.
  - intros b Hb. apply in_map_iff in Hb. destruct Hb as (d & <- & Hd).
    apply Z.eqb_neq. now apply Hnone.
Qed.

Lemma monthly_empty_without_current_rows_witness :
  monthly_returns_current_year analysis_2018_2023 = [].
Proof.
  apply (monthly_empty_without_current_rows 2024 closes_2018_2023
           analysis_2018_2023 frame_2018_2023_after analyze_closes_2018_2023).
  intros d Hd. simpl in Hd.
  repeat (destruct Hd as [<-|Hd]; [discriminate|]). contradiction.
Defined.

(** ** The yearly return of a year, from its closes *)

Lemma change_nonpos_iff (c c_prev : Q) :
  (0 < c_prev)%Q -> (c / c_prev - 1 <= 0 <-> c <= c_prev)%Q.
Proof.
  intros Hp.
  assert (Hne : ~ (c_prev == 0)%Q).
  { intros E. rewrite E in Hp. apply (Qlt_irrefl _ Hp). }
  pose proof (Qmult_div_r c c_prev Hne) as Hx.
  set (x := (c / c_prev)%Q) in *. split; intros H.
  - rewrite <- Hx. nra.
  - rewrite <- Hx in H. nra.
Qed.

Lemma change_pos_iff (c c_prev : Q) :
  (0 < c_prev)%Q -> (0 < c / c_prev - 1 <-> c_prev < c)%Q.
Proof.
  intros Hp. split; intros H.
  - apply Qnot_le_lt. intros Hle. apply (change_nonpos_iff c c_prev Hp) in Hle.
    exact (Qlt_not_le _ _ H Hle).
  - apply Qnot_le_lt. intros Hle. apply (change_nonpos_iff c c_prev Hp) in Hle.
    exact (Qlt_not_le _ _ H Hle).
Qed.

Lemma change_of_same_close (q : Q) : (0 < q)%Q -> (q / q - 1 == 0)%Q.
Proof.
  intros H. field. intros E. rewrite E in H. apply (Qlt_irrefl _ H).
Qed.

(** The entry of the yearly return series for two consecutive years
    covered, and that it is the only entry of its year. *)
Lemma yearly_return_of_year (df : DataFrame) (c : list cell) (i : nat) (y_prev y : Z) :
  price_series df ->
  lookup_column "Close" (columns df) = Ok c ->
  nth_error (years_covered df) i = Some y_prev ->
  nth_error (years_covered df) (S i) = Some y ->
  let close := combine (index df) c in
  let yr := returns_of year_key year_end close in
  y = y_prev + 1
  /\ nth_error yr i
     = Some (year_end y, (yearly_close close y / yearly_close close y_prev - 1)%Q)
  /\ (0 < yearly_close close y_prev)%Q
  /\ (0 < yearly_close close y)%Q
  /\ last_close_on_or_before df (year_end y_prev) (yearly_close close y_prev)
  /\ last_close_on_or_before df (year_end y) (yearly_close close y)
  /\ (forall d r, In (d, r) yr -> year d = y ->
        r = (yearly_close close y / yearly_close close y_prev - 1)%Q).
Proof.
  intros Hdf Hc Hprev Hy. cbv zeta.
  destruct (price_series_close df Hdf) as (c' & Hc' & Hlen & Hpos & Hinc & Hvalid).
  assert (c' = c) by congruence. subst c'.
  unfold years_covered in *. unfold last_close_on_or_before, getitem.
  rewrite Hc. cbn [bind].
  destruct (index df) as [|d0 rest] eqn:Hidx; [destruct i; discriminate|].
  rewrite <- Hidx in *.
  pose proof (first_last_year (index df) d0 rest Hidx Hinc) as Hab.
  pose proof (yearly_returns_closed_form (index df) c d0 rest Hidx Hlen Hpos
                Hinc Hvalid) as Hform.
  set (close := combine (index df) c) in *.
  set (a := year d0) in *. set (b := year (last (index df) d0)) in *.
  unfold Zrange in *.
  apply nth_error_map_seq in Hprev, Hy.
  destruct Hprev as (-> & _), Hy as (-> & Hi).
  destruct (yearly_close_latest (index df) c d0 rest Hidx Hlen Hpos Hinc Hvalid
              (a + Z.of_nat i)) as (dp & _ & Hpp & Hinp & Hlep & Hmaxp); [lia|].
  destruct (yearly_close_latest (index df) c d0 rest Hidx Hlen Hpos Hinc Hvalid
              (a + Z.of_nat (S i))) as (dc & _ & Hpc & Hinc' & Hlec & Hmaxc); [lia|].
  fold close in Hpp, Hinp, Hmaxp, Hpc, Hinc', Hmaxc.
  split; [lia|]. split.
  { rewrite Hform, nth_error_map.
    rewrite nth_error_nth' with (d := 0%nat) by (rewrite length_seq; lia).
    rewrite seq_nth by lia. reflexivity. }
  split; [exact Hpp|]. split; [exact Hpc|].
  split; [exists close, dp; repeat split; auto|].
  split; [exists close, dc; repeat split; auto|].
  intros d r Hin Hyd. rewrite Hform in Hin. apply in_map_iff in Hin.
  destruct Hin as (j & Hj & _). injection Hj as <- <-.
  cbn [year year_end] in Hyd.
  assert (j = i) by lia. subst j. reflexivity.
Qed.

(** X5.  On a price series, a year covered other than the first is a year
    of non-positive return exactly when the close of the latest row on or
    before its 31 December is not above that of the year before, and a year
    of positive return exactly when it is above. *)
Theorem nonpositive_year_iff_close_not_above (current_year : Z) (df : DataFrame) :
  price_series df ->
  exists out df',
    analyze_nifty_data current_year df = Ok (out, df')
    /\ forall i y_prev y,
         nth_error (years_covered df) i = Some y_prev ->
         nth_error (years_covered df) (S i) = Some y ->
         exists c_prev c,
           last_close_on_or_before df (year_end y_prev) c_prev
           /\ last_close_on_or_before df (year_end y) c
           /\ (nonpos_year (yearly_returns out) y <-> (c <= c_prev)%Q)
           /\ (positive_year (yearly_returns out) y <-> (c_prev < c)%Q).
Proof.
  intros Hdf.
  destruct (analyze_price_series current_year df Hdf)
    as (c & slumps & Hc & _ & _ & Hrun).
  cbv zeta in Hrun. eexists. eexists. split; [exact Hrun|].
  cbn [yearly_returns]. intros i y_prev y Hprev Hy.
  destruct (yearly_return_of_year df c i y_prev y Hdf Hc Hprev Hy)
    as (_ & Hnth & Hpp & Hpc & Hlp & Hlc & Honly).
  set (close := combine (index df) c) in *.
  exists (yearly_close close y_prev), (yearly_close close y).
  split; [exact Hlp|]. split; [exact Hlc|]. split.
  - rewrite <- (change_nonpos_iff _ _ Hpp). split.
    + intros (d & r & Hin & Hyd & Hr). now rewrite <- (Honly d r Hin Hyd).
    + intros Hr. eexists. eexists.
      split; [eapply nth_error_In; exact Hnth|].
      split; [reflexivity | exact Hr].
  - rewrite <- (change_pos_iff _ _ Hpp). split.
    + intros (d & r & Hin & Hyd & Hr). now rewrite <- (Honly d r Hin Hyd).
    + intros Hr. eexists. eexists.
      split; [eapply nth_error_In; exact Hnth|].
      split; [reflexivity | exact Hr].
Qed.

Lemma nonpositive_year_iff_close_not_above_witness :
  exists out df',
    analyze_nifty_data 2024 closes_2018_2023 = Ok (out, df')
    /\ exists c_prev c,
         last_close_on_or_before closes_2018_2023 (year_end 2018) c_prev
         /\ last_close_on_or_before closes_2018_2023 (year_end 2019) c
         /\ (nonpos_year (yearly_returns out) 2019 <-> (c <= c_prev)%Q)
         /\ (positive_year (yearly_returns out) 2019 <-> (c_prev < c)%Q).
Proof.
  assert (Hdf : price_series closes_2018_2023) by reflexivity.
  destruct (nonpositive_year_iff_close_not_above 2024 closes_2018_2023 Hdf)
    as (out & df' & Hrun & Hyears).
  exists out, df'. split; [exact Hrun|].
  destruct (Hyears 0%nat 2018 2019 eq_refl eq_refl)
    as (c_prev & c & Hp & Hc & Hiff & Hpos).
  exists c_prev, c. split; [exact Hp|]. split; [exact Hc|].
  split; [exact Hiff | exact Hpos].
Defined.

(** ** Years without a row, series without a slump, series that only fall *)

Lemma slumps_cover_nonpos_years (s : list (Date * Q)) (slumps : list (Z * Z)) :
  yearly_series s -> find_slumps s = Ok slumps ->
  forall y, nonpos_year s y <-> exists p, In p slumps /\ covers p y.
Proof.
  intros Hs Hslumps y.
  destruct (yearly_series_years s Hs) as (y0 & Hends).
  assert (Hyears : forall i d r,
            nth_error s i = Some (d, r) -> year d = y0 + Z.of_nat i).
  { intros i d r Hi. now rewrite (Hends i d r Hi). }
  destruct (find_slumps_runs s y0 Hyears) as (ps & Hrun & _ & Hmax & Hcover & _).
  assert (ps = slumps) by congruence. subst ps.
  rewrite <- (nonpos_iff s y0 Hyears). split.
  - apply Hcover.
  - intros (p & Hp & Hy). destruct (Hmax p Hp) as (_ & Hall & _). now apply Hall.
Qed.

Lemma ffill_at_ext (s : Series) (l1 l2 : Date) :
  (forall row, In row s -> date_leb (fst row) l1 = date_leb (fst row) l2) ->
  ffill_at s l1 = ffill_at s l2.
Proof.
  unfold ffill_at. generalize (@None Q) as acc.
  induction s as [|row s IH]; intros acc H; [reflexivity|].
  cbn [fold_left]. rewrite (H row) by now left.
  apply IH. intros row' Hrow'. apply H. now right.
Qed.

(** X6.  On a price series, a calendar year between the first and the last
    row that has no row of its own takes the close of the year before by
    forward fill: its yearly return is zero, so it counts as a year of
    non-positive return and lies in one of the slumps. *)
Theorem year_without_rows_is_slump_year (current_year : Z) (df : DataFrame) :
  price_series df ->
  exists out df' slumps,
    analyze_nifty_data current_year df = Ok (out, df')
    /\ find_slumps (yearly_returns out) = Ok slumps
    /\ forall i y_prev y,
         nth_error (years_covered df) i = Some y_prev ->
         nth_error (years_covered df) (S i) = Some y ->
         (forall d, In d (index df) -> year d <> y) ->
         (exists r, In (year_end y, r) (yearly_returns out) /\ (r == 0)%Q)
         /\ exists p, In p slumps /\ covers p y.
Proof.
  intros Hdf.
  destruct (analyze_price_series current_year df Hdf)
    as (c & slumps & Hc & Hyearly & Hslumps & Hrun).
  cbv zeta in Hrun. eexists. eexists. exists slumps. split; [exact Hrun|].
  cbn [yearly_returns]. split; [exact Hslumps|].
  intros i y_prev y Hprev Hy Hnone.
  destruct (yearly_return_of_year df c i y_prev y Hdf Hc Hprev Hy)
    as (Hnext & Hnth & Hpp & _ & _ & _ & _).
  destruct (price_series_close df Hdf) as (c' & Hc' & _ & _ & _ & Hvalid).
  set (close := combine (index df) c) in *.
  assert (Hsame : yearly_close close y = yearly_close close y_prev).
  { unfold yearly_close. rewrite (ffill_at_ext close (year_end y) (year_end y_prev));
      [reflexivity|].
    intros [d x] Hrow. cbn [fst]. apply in_combine_l in Hrow.
    rewrite forallb_forall in Hvalid.
    rewrite !date_leb_valid_year_end by now apply Hvalid.
    specialize (Hnone d Hrow).
    destruct (Z.leb_spec (year d) y), (Z.leb_spec (year d) y_prev);
      try reflexivity; lia. }
  rewrite Hsame in Hnth.
  pose proof (change_of_same_close _ Hpp) as Hzero.
  assert (Hin : In (year_end y,
                    (yearly_close close y_prev / yearly_close close y_prev - 1)%Q)
                   (returns_of year_key year_end close)).
  { eapply nth_error_In. exact Hnth. }
  split; [eauto|].
  apply (slumps_cover_nonpos_years _ slumps Hyearly Hslumps).
  eexists. eexists. split; [exact Hin|]. split; [reflexivity|].
  rewrite Hzero. apply Qle_refl.
Qed.

Lemma year_without_rows_is_slump_year_witness :
  exists out df' slumps,
    analyze_nifty_data 2024 closes_2018_and_2020 = Ok (out, df')
    /\ find_slumps (yearly_returns out) = Ok slumps
    /\ (exists r, In (year_end 2019, r) (yearly_returns out) /\ (r == 0)%Q)
    /\ exists p, In p slumps /\ covers p 2019.
Proof.
  assert (Hdf : price_series closes_2018_and_2020) by reflexivity.
  destruct (year_without_rows_is_slump_year 2024 closes_2018_and_2020 Hdf)
    as (out & df' & slumps & Hrun & Hslumps & Hgap).
  exists out, df', slumps. split; [exact Hrun|]. split; [exact Hslumps|].
  apply (Hgap 0%nat 2018 2019); [reflexivity | reflexivity |].
  intros d Hd. simpl in Hd. destruct Hd as [<-|[<-|[]]]; discriminate.
Defined.

Lemma slumps_start_before_end (s : list (Date * Q)) (slumps : list (Z * Z)) :
  yearly_series s -> find_slumps s = Ok slumps ->
  forall p, In p slumps -> fst p <= snd p.
Proof.
  intros Hs Hslumps p Hp.
  destruct (yearly_series_years s Hs) as (y0 & Hends).
  assert (Hyears : forall i d r,
            nth_error s i = Some (d, r) -> year d = y0 + Z.of_nat i).
  { intros i d r Hi. now rewrite (Hends i d r Hi). }
  destruct (find_slumps_runs s y0 Hyears) as (ps & Hrun & _ & Hmax & _).
  assert (ps = slumps) by congruence. subst ps.
  now destruct (Hmax p Hp).
Qed.

(** X7.  On a price series the scan finds no slump exactly when every
    yearly return is positive, and then both probabilities are 0. *)
Theorem no_slump_iff_all_positive (current_year : Z) (df : DataFrame) :
  price_series df ->
  exists out df' slumps,
    analyze_nifty_data current_year df = Ok (out, df')
    /\ find_slumps (yearly_returns out) = Ok slumps
    /\ (slumps = [] <->
        forall d r, In (d, r) (yearly_returns out) -> (0 < r)%Q)
    /\ (slumps = [] ->
        probability_next_year_exceeds out = 0%Q
        /\ probability_next_two_years_exceeds out = 0%Q).
Proof.
  intros Hdf.
  destruct (analyze_price_series current_year df Hdf)
    as (c & slumps & Hc & Hyearly & Hslumps & Hrun).
  cbv zeta in Hrun. eexists. eexists. exists slumps. split; [exact Hrun|].
  cbn [yearly_returns probability_next_year_exceeds
         probability_next_two_years_exceeds].
  split; [exact Hslumps|].
  pose proof (slumps_cover_nonpos_years _ slumps Hyearly Hslumps) as Hcover.
  pose proof (slumps_start_before_end _ slumps Hyearly Hslumps) as Hle.
  split; [split|].
  - intros -> d r Hin. apply Qnot_le_lt. intros Hr.
    destruct (proj1 (Hcover (year d))) as (p & [] & _).
    now exists d, r.
  - intros Hall. destruct slumps as [|p rest]; [reflexivity|]. exfalso.
    destruct (proj2 (Hcover (fst p))) as (d & r & Hin & _ & Hr).
    + exists p. split; [now left|]. unfold covers.
      specialize (Hle p (or_introl eq_refl)). lia.
    + apply (Qlt_not_le _ _ (Hall d r Hin) Hr).
  - intros ->. split; reflexivity.
Qed.

Lemma no_slump_iff_all_positive_witness :
  exists out df',
    analyze_nifty_data 2024 closes_rising = Ok (out, df')
    /\ find_slumps (yearly_returns out) = Ok [].
Proof.
  assert (Hdf : price_series closes_rising) by reflexivity.
  destruct (no_slump_iff_all_positive 2024 closes_rising Hdf)
    as (out & df' & slumps & Hrun & Hslumps & Hiff & _).
  exists out, df'. split; [exact Hrun|].
  assert (Hnone : slumps = []).
  { apply Hiff. intros d r Hin.
    assert (Hex : analyze_nifty_data 2024 closes_rising
                  = Ok (mkAnalysis [(year_end 2021, 10 # 100); (year_end 2022, 11 # 110)]%Q
                          [] 0 0 (Some (2200 # 22000)%Q),
                        setitem closes_rising "Daily_Return"
                          [(year_end 2020, None); (year_end 2021, Some (10 # 100)%Q);
                           (year_end 2022, Some (11 # 110)%Q)]))
      by (vm_compute; reflexivity).
    rewrite Hrun in Hex. injection Hex as -> _. simpl in Hin.
    destruct Hin as [Hin|[Hin|[]]]; injection Hin as _ <-; reflexivity. }
  now rewrite <- Hnone.
Defined.

Lemma no_recovery_after_last_year (s : list (Date * Q)) (y0 : Z) (m : cell) (p : Z * Z) :
  (forall i d r, nth_error s i = Some (d, r) -> d = year_end (y0 + Z.of_nat i)) ->
  snd p = y0 + Z.of_nat (List.length s) - 1 ->
  next_year_exceeds s m p = false /\ next_two_years_exceed s m p = false.
Proof.
  intros Hends Hend.
  assert (Hnext : next_year_exceeds s m p = false).
  { unfold next_year_exceeds. rewrite (find_year_from s y0 (snd p) 0 Hends).
    destruct ((y0 <=? snd p) && (snd p <? y0 + Z.of_nat (List.length s))) eqn:E;
      [|reflexivity].
    unfold exceeds_at. rewrite return_at_None; [reflexivity|].
    apply andb_true_iff in E. destruct E as (E & _). apply Z.leb_le in E. lia. }
  split; [exact Hnext|]. unfold next_two_years_exceed. now rewrite Hnext.
Qed.

(** X8.  On a price series whose yearly returns are all non-positive, the
    scan finds the single slump that runs from the first to the last year of
    the yearly series, and, that slump having no following year, both
    probabilities are 0. *)
Theorem falling_every_year (current_year : Z) (df : DataFrame) :
  price_series df ->
  exists out df',
    analyze_nifty_data current_year df = Ok (out, df')
    /\ forall d1 r1 dn rn,
         hd_error (yearly_returns out) = Some (d1, r1) ->
         last_error (yearly_returns out) = Some (dn, rn) ->
         (forall d r, In (d, r) (yearly_returns out) -> (r <= 0)%Q) ->
         find_slumps (yearly_returns out) = Ok [(year d1, year dn)]
         /\ probability_next_year_exceeds out = 0%Q
         /\ probability_next_two_years_exceeds out = 0%Q.
Proof.
  intros Hdf.
  destruct (analyze_price_series current_year df Hdf)
    as (c & slumps & Hc & Hyearly & Hslumps & Hrun).
  cbv zeta in Hrun. eexists. eexists. split; [exact Hrun|].
  cbn [yearly_returns probability_next_year_exceeds
         probability_next_two_years_exceeds].
  set (yr := returns_of year_key year_end (combine (index df) c)) in *.
  intros d1 r1 dn rn Hhd Hlast Hall.
  destruct (yearly_series_years yr Hyearly) as (y0 & Hends).
  assert (Hyears : forall i d r,
            nth_error yr i = Some (d, r) -> year d = y0 + Z.of_nat i).
  { intros i d r Hi. now rewrite (Hends i d r Hi). }
  destruct (find_slumps_runs yr y0 Hyears)
    as (ps & Hps & Hsorted & Hmax & Hcover & _).
  assert (ps = slumps) by congruence. subst ps.
  assert (Hn : (0 < List.length yr)%nat) by (destruct yr; [discriminate | simpl; lia]).
  assert (Hy1 : year d1 = y0).
  { destruct yr as [|row yr']; [discriminate|]. injection Hhd as ->.
    rewrite (Hyears 0%nat d1 r1 eq_refl). lia. }
  assert (Hyn : year dn = y0 + Z.of_nat (List.length yr) - 1).
  { unfold last_error in Hlast. rewrite (Hyears _ _ _ Hlast). lia. }
  assert (Hnonpos : forall y, y0 <= y < y0 + Z.of_nat (List.length yr) ->
                              nonpos yr y0 y).
  { intros y Hy. apply (nonpos_iff yr y0 Hyears).
    destruct (nth_error yr (Z.to_nat (y - y0))) as [[d r]|] eqn:E.
    - exists d, r. split; [eapply nth_error_In; eauto|].
      split; [rewrite (Hyears _ _ _ E); lia|].
      apply (Hall d r). eapply nth_error_In; eauto.
    - apply nth_error_None in E. lia. }
  assert (Honly : forall p, In p slumps ->
                    p = (y0, y0 + Z.of_nat (List.length yr) - 1)).
  { intros [a b] Hp. destruct (Hmax _ Hp) as (Hle & Hin & Hbefore & Hafter).
    cbn [fst snd] in *.
    destruct (Hin a) as (Ha & _); [lia|]. destruct (Hin b) as (Hb & _); [lia|].
    f_equal.
    - destruct (Z.eq_dec a y0) as [|Hne]; [assumption|].
      exfalso. apply Hbefore, Hnonpos. lia.
    - destruct (Z.eq_dec b (y0 + Z.of_nat (List.length yr) - 1)) as [|Hne];
        [assumption|].
      exfalso. apply Hafter, Hnonpos. lia. }
  assert (Hone : slumps = [(y0, y0 + Z.of_nat (List.length yr) - 1)]).
  { destruct slumps as [|p1 [|p2 rest]].
    - destruct (Hcover y0) as (p & [] & _). apply Hnonpos. lia.
    - f_equal. apply Honly. now left.
    - exfalso. apply StronglySorted_inv in Hsorted. destruct Hsorted as (_ & Hgap).
      apply Forall_inv in Hgap. unfold gap in Hgap.
      rewrite (Honly p1), (Honly p2) in Hgap by (simpl; auto).
      cbn [fst snd] in Hgap. lia. }
  rewrite Hy1, Hyn, <- Hone. split; [exact Hslumps|].
  rewrite Hone.
  destruct (no_recovery_after_last_year yr y0 (mean yr)
              (y0, y0 + Z.of_nat (List.length yr) - 1) Hends eq_refl)
    as (Hnext & Htwo).
  cbn [filter]. rewrite Hnext, Htwo. split; reflexivity.
Qed.

Lemma falling_every_year_witness :
  exists out df',
    analyze_nifty_data 2024 closes_falling = Ok (out, df')
    /\ find_slumps (yearly_returns out) = Ok [(2021, 2022)]
    /\ probability_next_year_exceeds out = 0%Q.
Proof.
  assert (Hdf : price_series closes_falling) by reflexivity.
  destruct (falling_every_year 2024 closes_falling Hdf) as (out & df' & Hrun & Hall).
  exists out, df'. split; [exact Hrun|].
  assert (Hex : analyze_nifty_data 2024 closes_falling
                = Ok (mkAnalysis [(year_end 2021, -10 # 100); (year_end 2022, 0 # 90)]%Q
                        [] 0 0 (Some (-900 # 18000)%Q),
                      setitem closes_falling "Daily_Return"
                        [(year_end 2020, None); (year_end 2021, Some (-10 # 100)%Q);
                         (year_end 2022, Some (0 # 90)%Q)]))
    by (vm_compute; reflexivity).
  rewrite Hrun in Hex. injection Hex as Hout _.
  destruct (Hall (year_end 2021) (-10 # 100)%Q (year_end 2022) (0 # 90)%Q)
    as (Hslumps & Hp1 & _).
  - now rewrite Hout.
  - now rewrite Hout.
  - rewrite Hout. intros d r Hin. simpl in Hin.
    destruct Hin as [Hin|[Hin|[]]]; injection Hin as _ <-; discriminate.
  - split; [exact Hslumps | exact Hp1].
Defined.

(** ** The [Daily_Return] column *)

Lemma cells_are_numbers (c : list cell) :
  forallb positive_cell c = true -> exists qs, c = map Some qs.
Proof.
  induction c as [|x c IH]; intros H; [now exists []|].
  cbn [forallb] in H. apply andb_true_iff in H. destruct H as (Hx & Hc).
  destruct (IH Hc) as (qs & ->). destruct x as [q|]; [|discriminate].
  now exists (q :: qs).
Qed.

Lemma shift_ratio_length (prev : cell) (l : list cell) :
  List.length (shift_ratio prev l) = List.length l.
Proof.
  revert prev. induction l as [|x l IH]; intros prev; simpl; [reflexivity|].
  now rewrite IH.
Qed.

Lemma ffill_na_length (prev : cell) (l : list cell) :
  List.length (ffill_na prev l) = List.length l.
Proof.
  revert prev. induction l as [|x l IH]; intros prev; simpl; [reflexivity|].
  now rewrite IH.
Qed.

Lemma shift_ratio_nth (qs : list Q) (prev : cell) (i : nat) (a b : Q) :
  nth_error qs i = Some a -> nth_error qs (S i) = Some b ->
  nth_error (shift_ratio prev (map Some qs)) (S i) = Some (Some (b / a - 1)%Q).
Proof.
  revert prev i. induction qs as [|q qs IH]; intros prev i Ha Hb; [discriminate|].
  destruct i as [|i].
  - simpl in Ha. injection Ha as ->.
    destruct qs as [|q' qs]; [discriminate|]. simpl in Hb. injection Hb as ->.
    reflexivity.
  - simpl in Ha. change (nth_error qs (S i) = Some b) in Hb.
    cbn [map shift_ratio]. change (nth_error (?x :: ?l) (S ?n)) with (nth_error l n).
    now apply IH.
Qed.

(** X9.  After the analysis of a price series the [Daily_Return] column of
    the frame has one cell per row: NaN in the first row, and in every later
    row the close of the row over the close of the row before, minus 1. *)
Theorem daily_return_column (current_year : Z) (df : DataFrame) :
  price_series df ->
  exists out df' closes daily,
    analyze_nifty_data current_year df = Ok (out, df')
    /\ lookup_column "Close" (columns df) = Ok closes
    /\ lookup_column "Daily_Return" (columns df') = Ok daily
    /\ List.length daily = List.length (index df)
    /\ (index df <> [] -> nth_error daily 0 = Some None)
    /\ forall i a b,
         nth_error closes i = Some (Some a) ->
         nth_error closes (S i) = Some (Some b) ->
         nth_error daily (S i) = Some (Some (b / a - 1)%Q).
Proof.
  intros Hdf.
  destruct (analyze_price_series current_year df Hdf)
    as (c & slumps & Hc & _ & _ & Hrun).
  destruct (price_series_close df Hdf) as (c' & Hc' & Hlen & Hpos & _).
  assert (c' = c) by congruence. subst c'.
  cbv zeta in Hrun. eexists. eexists. exists c. eexists.
  split; [exact Hrun|]. split; [exact Hc|].
  unfold setitem. cbn [columns]. rewrite lookup_assign_same.
  split; [reflexivity|].
  destruct (cells_are_numbers c Hpos) as (qs & Hqs).
  assert (Hdaily : map snd (pct_change (combine (index df) c))
                   = shift_ratio None (map Some qs)).
  { unfold pct_change. rewrite map_snd_combine.
    - rewrite (map_snd_combine _ _ Hlen), Hqs, ffill_na_some. reflexivity.
    - rewrite length_map, shift_ratio_length, ffill_na_length, !length_map.
      reflexivity. }
  rewrite Hdaily. split; [|split].
  - rewrite shift_ratio_length, Hlen, Hqs. reflexivity.
  - intros Hne. destruct qs as [|q qs]; [|reflexivity].
    rewrite Hqs in Hlen. destruct (index df); [congruence | discriminate].
  - intros i a b Ha Hb. rewrite Hqs in Ha, Hb.
    rewrite nth_error_map in Ha, Hb.
    destruct (nth_error qs i) as [a'|] eqn:Ea; [|discriminate].
    destruct (nth_error qs (S i)) as [b'|] eqn:Eb; [|discriminate].
    simpl in Ha, Hb. injection Ha as ->. injection Hb as ->.
    now apply shift_ratio_nth.
Qed.

Lemma daily_return_column_witness :
  exists out df' daily,
    analyze_nifty_data 2024 closes_2018_2023 = Ok (out, df')
    /\ lookup_column "Daily_Return" (columns df') = Ok daily
    /\ List.length daily = 6%nat.
Proof.
  assert (Hdf : price_series closes_2018_2023) by reflexivity.
  destruct (daily_return_column 2024 closes_2018_2023 Hdf)
    as (out & df' & closes & daily & Hrun & _ & Hdaily & Hlength & _).
  exists out, df', daily. repeat split; assumption.
Defined.

(** ** Returns of any resampling rule *)

Lemma ffill_at_latest_sorted (idx : list Date) (cells : list cell) (label : Date) :
  StronglySorted date_lt idx ->
  List.length idx = List.length cells ->
  (exists d, In d idx /\ date_leb d label = true) ->
  exists d,
    In (d, ffill_at (combine idx cells) label) (combine idx cells)
    /\ date_leb d label = true
    /\ forall d' c', In (d', c') (combine idx cells) ->
                     date_leb d' label = true -> date_leb d' d = true.
Proof.
  intros Hsorted Hlen (d1 & Hd1 & Hle1).
  destruct (ffill_fold (combine idx cells) label None) as [(_ & Hall)|Hex];
    cbn zeta in *.
  - destruct (in_combine_exists idx cells d1 Hlen Hd1) as (c1 & Hc1).
    specialize (Hall _ Hc1). simpl in Hall. congruence.
  - destruct Hex as (pre & d & post & Hs & Hd & Hpost).
    fold (ffill_at (combine idx cells) label) in Hs.
    exists d. split; [rewrite Hs at 2; apply in_or_app; right; now left|].
    split; [exact Hd|].
    intros d' c' Hin Hle'. rewrite Hs in Hin.
    apply in_app_or in Hin. destruct Hin as [Hin|[Hin|Hin]].
    + apply date_leb_iff. left.
      apply (sorted_before (map fst pre) (map fst post) d).
      * replace (map fst pre ++ d :: map fst post) with idx; [exact Hsorted|].
        rewrite <- (map_fst_combine idx cells Hlen), Hs, map_app. reflexivity.
      * apply (in_map fst) in Hin. exact Hin.
    + injection Hin as <- _. apply date_leb_iff. now right.
    + specialize (Hpost _ Hin). simpl in Hpost. congruence.
Qed.

Lemma last_In {A : Type} (x : A) (l : list A) (d : A) : In (last (x :: l) d) (x :: l).
Proof.
  revert x. induction l as [|y l IH]; intros x; [now left|].
  right. apply (IH y).
Qed.

Section PeriodReturns.

Variable key : Date -> Z.
Variable period_end : Z -> Date.

(** Later dates fall in later periods, and a date is on or before the end
    of its period and of every later one. *)
Hypothesis Hkey : forall a b,
  valid_dateb a = true -> valid_dateb b = true -> date_ltb a b = true ->
  key a <= key b.
Hypothesis Hend : forall d k,
  valid_dateb d = true -> key d <= k -> date_leb d (period_end k) = true.

Variable idx : list Date.
Variable cells : list cell.
Variable d0 : Date.
Variable rest : list Date.

Hypothesis Hidx : idx = d0 :: rest.
Hypothesis Hlen : List.length idx = List.length cells.
Hypothesis Hpos : forallb positive_cell cells = true.
Hypothesis Hsorted : StronglySorted date_lt idx.
Hypothesis Hvalid : forallb valid_dateb idx = true.

Let close := combine idx cells.
Let a := key d0.
Let b := key (last idx d0).

Lemma first_last_period : a <= b.
Proof.
  unfold a, b. rewrite forallb_forall in Hvalid.
  assert (Hd0 : In d0 idx) by (rewrite Hidx; now left).
  assert (Hl : In (last idx d0) idx) by (rewrite Hidx; apply last_In).
  destruct (sorted_last idx d0 d0 Hsorted Hd0) as [E|Hlt].
  - rewrite <- E. lia.
  - apply Hkey; auto.
Qed.

Lemma close_at_latest (k : Z) :
  a <= k ->
  exists d,
    ffill_at close (period_end k) = Some (close_at close (period_end k))
    /\ (0 < close_at close (period_end k))%Q
    /\ In (d, Some (close_at close (period_end k))) close
    /\ date_leb d (period_end k) = true
    /\ forall d' c', In (d', c') close -> date_leb d' (period_end k) = true ->
                     date_leb d' d = true.
Proof.
  intros Hk.
  destruct (ffill_at_latest_sorted idx cells (period_end k) Hsorted Hlen)
    as (d & Hin & Hle & Hmax).
  { exists d0. split; [rewrite Hidx; now left|].
    apply Hend; [|exact Hk].
    rewrite forallb_forall in Hvalid. apply Hvalid. rewrite Hidx. now left. }
  fold close in Hin, Hmax.
  destruct (positive_cells idx cells d _ Hpos Hin) as (q & Hq & Hq0).
  assert (Eq : close_at close (period_end k) = q)
    by (unfold close_at; now rewrite Hq).
  exists d. rewrite Eq.
  split; [exact Hq|]. split; [exact Hq0|].
  split; [now rewrite <- Hq|]. split; [exact Hle | exact Hmax].
Qed.

Lemma period_returns_closed_form :
  returns_of key period_end close
  = map (fun i => (period_end (a + Z.of_nat (S i)),
                   (close_at close (period_end (a + Z.of_nat (S i)))
                    / close_at close (period_end (a + Z.of_nat i)) - 1)%Q))
        (seq 0 (Z.to_nat (b - a))).
Proof.
  pose proof first_last_period as Hab.
  assert (Hclose : exists c0 s', close = (d0, c0) :: s').
  { unfold close. rewrite Hidx. rewrite Hidx in Hlen.
    destruct cells as [|c0 cells']; [discriminate|]. simpl. eauto. }
  destruct Hclose as (c0 & s' & Hclose).
  unfold returns_of. rewrite (resample_ffill_cons _ _ close d0 c0 s' Hclose).
  assert (Hl : fst (last close (d0, None)) = last idx d0)
    by (apply last_combine; exact Hlen).
  rewrite Hl. fold a b. unfold Zrange.
  replace (Z.to_nat (b - a + 1)) with (S (Z.to_nat (b - a))) by lia.
  rewrite map_map.
  rewrite (map_ext_in _ (fun i => (period_end (a + Z.of_nat i),
                                   Some (close_at close (period_end (a + Z.of_nat i)))))).
  - apply (returns_closed_form (fun i => period_end (a + Z.of_nat i))
             (fun i => close_at close (period_end (a + Z.of_nat i)))).
  - intros i _. f_equal.
    destruct (close_at_latest (a + Z.of_nat i)) as (d & -> & _); [lia|].
    reflexivity.
Qed.

End PeriodReturns.

(** ** Months *)

Lemma valid_month (d : Date) : valid_dateb d = true -> 1 <= month d <= 12.
Proof.
  unfold valid_dateb. rewrite !andb_true_iff, !Z.leb_le. tauto.
Qed.

Lemma valid_day (d : Date) :
  valid_dateb d = true -> 1 <= day d <= days_in_month (year d) (month d).
Proof.
  unfold valid_dateb. rewrite !andb_true_iff, !Z.leb_le. tauto.
Qed.

Lemma month_end_of_key (y m : Z) :
  1 <= m <= 12 -> month_end (12 * y + (m - 1)) = mkDate y m (days_in_month y m).
Proof.
  intros Hm. unfold month_end. cbv zeta.
  assert (Hq : (12 * y + (m - 1)) / 12 = y).
  { symmetry. apply (Z.div_unique _ 12 y (m - 1)); lia. }
  assert (Hr : (12 * y + (m - 1)) mod 12 = m - 1).
  { symmetry. apply (Z.mod_unique _ 12 y (m - 1)); lia. }
  rewrite Hq, Hr. replace (m - 1 + 1) with m by lia. reflexivity.
Qed.

Lemma month_key_mono (a b : Date) :
  valid_dateb a = true -> valid_dateb b = true -> date_ltb a b = true ->
  month_key a <= month_key b.
Proof.
  intros Ha Hb Hlt. apply valid_month in Ha, Hb. apply date_ltb_iff in Hlt.
  unfold month_key. lia.
Qed.

Lemma valid_date_before_month_end (d : Date) (k : Z) :
  valid_dateb d = true -> month_key d <= k -> date_leb d (month_end k) = true.
Proof.
  intros Hd Hk. pose proof (valid_month d Hd) as Hm.
  pose proof (valid_day d Hd) as Hday.
  pose proof (Z.div_mod k 12 ltac:(lia)) as Hdm.
  pose proof (Z.mod_pos_bound k 12 ltac:(lia)) as Hmod.
  unfold month_key in Hk.
  apply date_leb_iff. rewrite date_ltb_iff. unfold month_end.
  cbn [year month day].
  destruct (Z.eq_dec (year d) (k / 12)) as [Ey|Ey]; [|left; lia].
  destruct (Z.eq_dec (month d) (k mod 12 + 1)) as [Em|Em]; [|left; lia].
  rewrite <- Ey, <- Em.
  destruct (Z.eq_dec (day d) (days_in_month (year d) (month d))) as [Ed|Ed];
    [|left; lia].
  right. destruct d as [yy mm dd]. cbn [year month day] in *. now rewrite <- Ed.
Qed.

(** ** The monthly return series of the current year *)

Lemma mask_map_filter {A : Type} (f : A -> bool) (l : list A) :
  mask (map f l) l = filter f l.
Proof.
  unfold mask. induction l as [|x l IH]; [reflexivity|].
  simpl. destruct (f x); simpl; now rewrite IH.
Qed.

Lemma mask_nil {A : Type} (keep : list bool) : mask keep (@nil A) = [].
Proof. unfold mask. now destruct keep. Qed.

Lemma mask_cons {A : Type} (k : bool) (keep : list bool) (x : A) (l : list A) :
  mask (k :: keep) (x :: l) = if k then x :: mask keep l else mask keep l.
Proof. unfold mask. simpl. now destruct k. Qed.

Lemma mask_combine {A B : Type} (keep : list bool) (l1 : list A) (l2 : list B) :
  combine (mask keep l1) (mask keep l2) = mask keep (combine l1 l2).
Proof.
  revert l1 l2. induction keep as [|k keep IH]; intros l1 l2; [reflexivity|].
  destruct l1 as [|x l1]; [now rewrite !mask_nil|].
  destruct l2 as [|y l2].
  - cbn [combine]. rewrite !mask_nil. now destruct (mask (k :: keep) (x :: l1)).
  - cbn [combine]. rewrite !mask_cons. destruct k; cbn [combine]; now rewrite IH.
Qed.

Lemma mask_length {A B : Type} (keep : list bool) (l1 : list A) (l2 : list B) :
  List.length l1 = List.length l2 ->
  List.length (mask keep l1) = List.length (mask keep l2).
Proof.
  revert l1 l2. induction keep as [|k keep IH]; intros l1 l2 H; [reflexivity|].
  destruct l1 as [|x l1], l2 as [|y l2]; try discriminate;
    [now rewrite !mask_nil|].
  rewrite !mask_cons. simpl in H.
  destruct k; cbn [List.length]; rewrite (IH l1 l2) by lia; reflexivity.
Qed.

Lemma mask_In {A : Type} (keep : list bool) (l : list A) (x : A) :
  In x (mask keep l) -> In x l.
Proof.
  revert l. induction keep as [|k keep IH]; intros l H; [contradiction|].
  destruct l as [|y l]; [now rewrite mask_nil in H|].
  rewrite mask_cons in H. destruct k.
  - destruct H as [->|H]; [now left | right; now apply IH].
  - right. now apply IH.
Qed.

Lemma current_year_close_filter (current_year : Z) (df : DataFrame) (c : list cell) :
  List.length (index df) = List.length c ->
  current_year_close current_year df c
  = filter (fun row => year (fst row) =? current_year) (combine (index df) c).
Proof.
  intros Hlen. unfold current_year_close. cbv zeta. rewrite mask_combine.
  rewrite <- (mask_map_filter (fun row : Date * cell => year (fst row) =? current_year)).
  f_equal. rewrite <- (map_fst_combine (index df) c Hlen) at 1.
  now rewrite map_map.
Qed.

Lemma StronglySorted_filter {A : Type} (R : A -> A -> Prop) (f : A -> bool) (l : list A) :
  StronglySorted R l -> StronglySorted R (filter f l).
Proof.
  induction 1 as [|x l Hs IH Hx]; simpl; [constructor|].
  destruct (f x); [|exact IH]. constructor; [exact IH|].
  rewrite Forall_forall in *. intros y Hy. apply Hx.
  apply filter_In in Hy. tauto.
Qed.

(** X10.  On a price series with rows in the current year, the monthly
    return series has one entry for every calendar month after that of the
    first row of the current year, up to that of its last row; the entry of
    a month is dated on its last day and is [c / c_prev - 1], where [c] and
    [c_prev] are the closes of the latest rows of the current year on or
    before the end of that month and of the month before.  The month of the
    first row has no entry: the rows of the year before are left out before
    the resampling. *)
Theorem monthly_returns_per_month (current_year : Z) (df : DataFrame)
  (d0 : Date) (rest : list Date) :
  price_series df ->
  current_year_rows current_year df = d0 :: rest ->
  exists out df',
    analyze_nifty_data current_year df = Ok (out, df')
    /\ List.length (monthly_returns_current_year out)
       = Z.to_nat (month (last (d0 :: rest) d0) - month d0)
    /\ forall i,
         (i < List.length (monthly_returns_current_year out))%nat ->
         exists c_prev c,
           last_close_of_year_on_or_before df current_year
             (end_of_month current_year (month d0 + Z.of_nat i)) c_prev
           /\ last_close_of_year_on_or_before df current_year
                (end_of_month current_year (month d0 + Z.of_nat (S i))) c
           /\ nth_error (monthly_returns_current_year out) i
              = Some (end_of_month current_year (month d0 + Z.of_nat (S i)),
                      (c / c_prev - 1)%Q).
Proof.
  intros Hdf Hrows.
  destruct (analyze_price_series current_year df Hdf)
    as (c & slumps & Hc & _ & _ & Hrun).
  destruct (price_series_close df Hdf) as (c' & Hc' & Hlen & Hpos & Hinc & Hvalid).
  assert (c' = c) by congruence. subst c'.
  cbv zeta in Hrun. eexists. eexists. split; [exact Hrun|].
  cbn [monthly_returns_current_year].
  unfold last_close_of_year_on_or_before, getitem. rewrite Hc. cbn [bind].
  pose proof (current_year_close_filter current_year df c Hlen) as Hfilter.
  set (keep := map (fun d => year d =? current_year) (index df)).
  set (idx := mask keep (index df)).
  set (cells := mask keep c).
  assert (Hidx : idx = d0 :: rest).
  { unfold idx, keep. now rewrite mask_map_filter. }
  assert (Hin_idx : forall d, In d idx -> In d (index df) /\ year d = current_year).
  { intros d Hd. unfold idx, keep in Hd. rewrite mask_map_filter in Hd.
    apply filter_In in Hd. destruct Hd as (Hd & Hy). apply Z.eqb_eq in Hy. tauto. }
  assert (Hclose : combine idx cells = current_year_close current_year df c)
    by reflexivity.
  assert (Hlen' : List.length idx = List.length cells)
    by (now apply mask_length).
  assert (Hpos' : forallb positive_cell cells = true).
  { apply forallb_forall. intros x Hx. rewrite forallb_forall in Hpos.
    apply Hpos. now apply (mask_In keep). }
  assert (Hsorted' : StronglySorted date_lt idx).
  { unfold idx, keep. rewrite mask_map_filter.
    apply StronglySorted_filter. now apply increasing_sorted. }
  assert (Hvalid' : forallb valid_dateb idx = true).
  { apply forallb_forall. intros d Hd. rewrite forallb_forall in Hvalid.
    apply Hvalid. now apply Hin_idx. }
  pose proof (period_returns_closed_form month_key month_end month_key_mono
                valid_date_before_month_end idx cells d0 rest Hidx Hlen' Hpos'
                Hsorted' Hvalid') as Hform.
  pose proof (first_last_period month_key month_key_mono idx cells d0 rest Hidx
                Hlen' Hsorted' Hvalid') as Hab.
  rewrite Hclose in Hform. rewrite Hform. clear Hform.
  assert (Hd0 : In d0 idx) by (rewrite Hidx; now left).
  assert (Hdn : In (last idx d0) idx) by (rewrite Hidx; apply last_In).
  rewrite <- Hidx.
  rewrite forallb_forall in Hvalid'.
  pose proof (valid_month _ (Hvalid' _ Hd0)) as Hm0.
  pose proof (valid_month _ (Hvalid' _ Hdn)) as Hmn.
  destruct (Hin_idx _ Hd0) as (_ & Hy0). destruct (Hin_idx _ Hdn) as (_ & Hyn).
  unfold month_key in *. rewrite Hy0, Hyn in *.
  replace (12 * current_year + (month (last idx d0) - 1)
           - (12 * current_year + (month d0 - 1)))
    with (month (last idx d0) - month d0) by lia.
  rewrite length_map, length_seq. split; [reflexivity|].
  intros i Hi.
  assert (Hend : forall j, (j <= S i)%nat ->
            month_end (12 * current_year + (month d0 - 1) + Z.of_nat j)
            = end_of_month current_year (month d0 + Z.of_nat j)).
  { intros j Hj.
    replace (12 * current_year + (month d0 - 1) + Z.of_nat j)
      with (12 * current_year + (month d0 + Z.of_nat j - 1)) by lia.
    apply month_end_of_key. lia. }
  assert (Hlatest : forall j, (j <= S i)%nat ->
            exists d,
              In (d, Some (close_at (current_year_close current_year df c)
                             (end_of_month current_year (month d0 + Z.of_nat j))))
                 (combine (index df) c)
              /\ year d = current_year
              /\ date_leb d (end_of_month current_year (month d0 + Z.of_nat j)) = true
              /\ forall d' c', In (d', c') (combine (index df) c) ->
                   year d' = current_year ->
                   date_leb d' (end_of_month current_year (month d0 + Z.of_nat j))
                   = true ->
                   date_leb d' d = true).
  { intros j Hj.
    destruct (close_at_latest month_key month_end valid_date_before_month_end
                idx cells d0 rest Hidx Hlen' Hpos' Hsorted'
                ltac:(now apply forallb_forall)
                (12 * current_year + (month d0 - 1) + Z.of_nat j))
      as (d & _ & _ & Hin & Hle & Hmax).
    { unfold month_key. rewrite Hy0. lia. }
    rewrite Hclose, (Hend j Hj) in *. exists d.
    set (q := close_at (current_year_close current_year df c)
                (end_of_month current_year (month d0 + Z.of_nat j))) in *.
    rewrite Hfilter in Hin. apply filter_In in Hin. destruct Hin as (Hin & Hyd).
    cbn [fst] in Hyd. apply Z.eqb_eq in Hyd.
    split; [exact Hin|]. split; [exact Hyd|]. split; [exact Hle|].
    intros d' x' Hin' Hyd' Hle'. apply (Hmax d' x'); [|exact Hle'].
    rewrite Hfilter. apply filter_In. split; [exact Hin'|].
    cbn [fst]. now apply Z.eqb_eq. }
  destruct (Hlatest i ltac:(lia)) as (dp & Hp1 & Hp2 & Hp3 & Hp4).
  destruct (Hlatest (S i) ltac:(lia)) as (dc & Hc1 & Hc2 & Hc3 & Hc4).
  eexists. eexists. split; [|split].
  - exists (combine (index df) c), dp. repeat split; eauto.
  - exists (combine (index df) c), dc. repeat split; eauto.
  - rewrite nth_error_map.
    rewrite nth_error_nth' with (d := 0%nat) by (rewrite length_seq; lia).
    rewrite seq_nth by lia. cbn [option_map Nat.add].
    rewrite (Hend (S i)), (Hend i) by lia. reflexivity.
Qed.

Lemma monthly_returns_per_month_witness :
  exists out df',
    analyze_nifty_data 2023 closes_early_2023 = Ok (out, df')
    /\ List.length (monthly_returns_current_year out) = 3%nat.
Proof.
  assert (Hdf : price_series closes_early_2023) by reflexivity.
  assert (Hrows : current_year_rows 2023 closes_early_2023
                  = mkDate 2023 1 15 :: [mkDate 2023 2 10; mkDate 2023 4 3])
    by reflexivity.
  destruct (monthly_returns_per_month 2023 closes_early_2023 _ _ Hdf Hrows)
    as (out & df' & Hrun & Hlength & _).
  exists out, df'. split; [exact Hrun | exact Hlength].
Defined.

(** ** Which slumps can count as recoveries *)

(** On a series of consecutive year ends, the entry of a year is the one at
    the position of that year. *)
Lemma above_mean_in_at (s : list (Date * Q)) (y0 : Z) (m : cell) (i : nat) :
  (forall j d r, nth_error s j = Some (d, r) -> d = year_end (y0 + Z.of_nat j)) ->
  above_mean_in s m (y0 + Z.of_nat i) = exceeds_at s m i.
Proof.
  intros Hends. apply eq_true_iff_eq.
  unfold above_mean_in, exceeds_at, return_at. rewrite existsb_exists. split.
  - intros ([d r] & Hin & H). cbn [fst snd] in H.
    apply andb_true_iff in H. destruct H as (Hd & Hgt).
    apply date_eqb_eq in Hd. apply In_nth_error in Hin. destruct Hin as (j & Hj).
    pose proof (Hends j d r Hj) as E. rewrite Hd in E. injection E as E.
    assert (j = i) by lia. subst j. rewrite Hj. exact Hgt.
  - destruct (nth_error s i) as [[d r]|] eqn:E; simpl; [|discriminate].
    intros Hgt. exists (d, r). split; [eapply nth_error_In; exact E|].
    cbn [fst snd]. rewrite (Hends _ _ _ E).
    apply andb_true_iff. split; [now apply date_eqb_eq | exact Hgt].
Qed.

(** For a period that ends in a year of the series, the positions that the
    loop reads are those of the entries of the next two calendar years. *)
Lemma recovery_by_calendar_year (s : list (Date * Q)) (y0 : Z) (m : cell) (p : Z * Z) :
  (forall j d r, nth_error s j = Some (d, r) -> d = year_end (y0 + Z.of_nat j)) ->
  y0 <= snd p < y0 + Z.of_nat (List.length s) ->
  next_year_exceeds s m p = recovers_next_year s m p
  /\ next_two_years_exceed s m p = recovers_next_two_years s m p.
Proof.
  intros Hends Hrange.
  unfold next_two_years_exceed, next_year_exceeds, recovers_next_two_years,
    recovers_next_year.
  rewrite (find_year_from s y0 (snd p) 0 Hends).
  replace ((y0 <=? snd p) && (snd p <? y0 + Z.of_nat (List.length s))) with true
    by (symmetry; apply andb_true_iff; split;
        [apply Z.leb_le | apply Z.ltb_lt]; lia).
  cbn [Nat.add].
  replace (snd p + 1) with (y0 + Z.of_nat (Z.to_nat (snd p - y0) + 1)) by lia.
  replace (snd p + 2) with (y0 + Z.of_nat (Z.to_nat (snd p - y0) + 2)) by lia.
  rewrite !(above_mean_in_at s y0 m _ Hends).
  replace (y0 + Z.of_nat (Z.to_nat (snd p - y0) + 1) - y0 + 1)
    with (Z.of_nat (Z.to_nat (snd p - y0) + 2)) by lia.
  split; reflexivity.
Qed.

(** X11.  On a price series, one pass of the loop over a slump that the scan
    found adds one to the one-year count exactly when the yearly series has
    an entry for the calendar year after the end year of the slump that is
    above the mean, and one to the two-year count exactly when it also has
    an entry above the mean for the second year after; each probability
    returned is the number of such slumps over the number of slumps.  A
    slump that ended in the last year of the series, or in the year before
    the last, is never a two-year recovery. *)
Theorem recovery_needs_following_years (current_year : Z) (df : DataFrame) :
  price_series df ->
  exists out df' slumps,
    analyze_nifty_data current_year df = Ok (out, df')
    /\ find_slumps (yearly_returns out) = Ok slumps
    /\ (forall p st, In p slumps ->
          exists st',
            estimate_body (yearly_returns out) (mean_yearly_return out) st p
            = Ok st'
            /\ count_next_year_exceeds st'
               = (count_next_year_exceeds st
                  + if recovers_next_year (yearly_returns out)
                         (mean_yearly_return out) p
                    then 1 else 0)%nat
            /\ count_next_two_years_exceeds st'
               = (count_next_two_years_exceeds st
                  + if recovers_next_two_years (yearly_returns out)
                         (mean_yearly_return out) p
                    then 1 else 0)%nat)
    /\ probability_next_year_exceeds out
       = ratio (List.length
                  (filter (recovers_next_year (yearly_returns out)
                             (mean_yearly_return out)) slumps))
               (List.length slumps)
    /\ probability_next_two_years_exceeds out
       = ratio (List.length
                  (filter (recovers_next_two_years (yearly_returns out)
                             (mean_yearly_return out)) slumps))
               (List.length slumps)
    /\ (forall p d r,
          In p slumps ->
          last_error (yearly_returns out) = Some (d, r) ->
          year d <= snd p + 1 ->
          recovers_next_two_years (yearly_returns out) (mean_yearly_return out) p
          = false).
Proof.
  intros Hdf.
  destruct (analyze_price_series current_year df Hdf)
    as (c & slumps & Hc & Hyearly & Hslumps & Hrun).
  cbv zeta in Hrun. eexists. eexists. exists slumps. split; [exact Hrun|].
  cbn [yearly_returns mean_yearly_return probability_next_year_exceeds
         probability_next_two_years_exceeds].
  set (yr := returns_of year_key year_end (combine (index df) c)) in *.
  split; [exact Hslumps|].
  destruct (yearly_series_years yr Hyearly) as (y0 & Hends).
  assert (Hyears : forall i d r,
            nth_error yr i = Some (d, r) -> year d = y0 + Z.of_nat i).
  { intros i d r Hi. now rewrite (Hends i d r Hi). }
  assert (Hrange : forall p, In p slumps ->
            y0 <= snd p < y0 + Z.of_nat (List.length yr)).
  { intros p Hp.
    destruct (find_slumps_runs yr y0 Hyears) as (ps & Hps & _ & Hmax & _).
    assert (ps = slumps) by congruence. subst ps.
    destruct (Hmax p Hp) as (Hle & Hall & _).
    destruct (Hall (snd p)) as (Hr & _); [lia | exact Hr]. }
  assert (Hsame : forall p, In p slumps ->
            next_year_exceeds yr (mean yr) p = recovers_next_year yr (mean yr) p
            /\ next_two_years_exceed yr (mean yr) p
               = recovers_next_two_years yr (mean yr) p).
  { intros p Hp. apply (recovery_by_calendar_year yr y0); [exact Hends|].
    now apply Hrange. }
  split; [|split; [|split]].
  - intros p st Hp.
    destruct (estimate_body_yearly yr y0 (mean yr) Hends st p) as (nyr & ->).
    destruct (Hsame p Hp) as (-> & ->).
    eexists. split; [reflexivity|].
    cbn [count_next_year_exceeds count_next_two_years_exceeds].
    destruct (recovers_next_year yr (mean yr) p),
      (recovers_next_two_years yr (mean yr) p); split; lia.
  - f_equal. f_equal. apply filter_ext_in. intros p Hp. apply (Hsame p Hp).
  - f_equal. f_equal. apply filter_ext_in. intros p Hp. apply (Hsame p Hp).
  - intros p d r Hp Hlast Hd. unfold recovers_next_two_years.
    apply andb_false_iff. right.
    destruct (above_mean_in yr (mean yr) (snd p + 2)) eqn:E; [|reflexivity].
    exfalso. unfold above_mean_in in E. apply existsb_exists in E.
    destruct E as ([d2 r2] & Hin & H). cbn [fst snd] in H.
    apply andb_true_iff in H. destruct H as (Hd2 & _).
    apply date_eqb_eq in Hd2. apply In_nth_error in Hin.
    destruct Hin as (j & Hj).
    assert (Hjlt : (j < List.length yr)%nat).
    { apply nth_error_Some. rewrite Hj. discriminate. }
    pose proof (Hyears j d2 r2 Hj) as Hy2. rewrite Hd2 in Hy2.
    cbn [year year_end] in Hy2.
    unfold last_error in Hlast. pose proof (Hyears _ d r Hlast) as Hy.
    lia.
Qed.

Lemma recovery_needs_following_years_witness :
  exists out df' slumps,
    analyze_nifty_data 2024 closes_2018_2023 = Ok (out, df')
    /\ find_slumps (yearly_returns out) = Ok slumps
    /\ probability_next_year_exceeds out
       = ratio (List.length
                  (filter (recovers_next_year (yearly_returns out)
                             (mean_yearly_return out)) slumps))
               (List.length slumps).
Proof.
  assert (Hdf : price_series closes_2018_2023) by reflexivity.
  destruct (recovery_needs_following_years 2024 closes_2018_2023 Hdf)
    as (out & df' & slumps & Hrun & Hslumps & _ & Hone & _).
  exists out, df', slumps. split; [exact Hrun|]. split; [exact Hslumps | exact Hone].
Defined.

(** ** The lookup of a detected slump *)

(** X12.  On a price series the nearest-label fallback is never needed: for
    every slump that the scan finds, the lookup of 31 December of its end
    year returns the position of the entry dated that day, whose return is
    not positive. *)
Theorem detected_slump_lookup_is_exact (current_year : Z) (df : DataFrame) :
  price_series df ->
  exists out df' slumps,
    analyze_nifty_data current_year df = Ok (out, df')
    /\ find_slumps (yearly_returns out) = Ok slumps
    /\ forall p, In p slumps ->
         exists i r,
           get_loc_nearest (map fst (yearly_returns out)) (year_end (snd p)) = Ok i
           /\ nth_error (yearly_returns out) i = Some (year_end (snd p), r)
           /\ (r <= 0)%Q.
Proof.
  intros Hdf.
  destruct (analyze_price_series current_year df Hdf)
    as (c & slumps & Hc & Hyearly & Hslumps & Hrun).
  cbv zeta in Hrun. eexists. eexists. exists slumps. split; [exact Hrun|].
  cbn [yearly_returns].
  set (yr := returns_of year_key year_end (combine (index df) c)) in *.
  split; [exact Hslumps|]. intros p Hp.
  destruct (yearly_series_years yr Hyearly) as (y0 & Hends).
  assert (Hyears : forall i d r,
            nth_error yr i = Some (d, r) -> year d = y0 + Z.of_nat i).
  { intros i d r Hi. now rewrite (Hends i d r Hi). }
  destruct (find_slumps_runs yr y0 Hyears) as (ps & Hps & _ & Hmax & _).
  assert (ps = slumps) by congruence. subst ps.
  destruct (Hmax p Hp) as (Hle & Hall & _).
  destruct (Hall (snd p)) as (Hrange & Hflag); [lia|].
  unfold flag_at in Hflag.
  destruct (nth_error yr (Z.to_nat (snd p - y0))) as [[d r]|] eqn:E;
    [|discriminate].
  exists (Z.to_nat (snd p - y0)), r. split; [|split].
  - apply (get_loc_nearest_exact _ y0).
    + now apply series_index_yearly.
    + now rewrite length_map.
  - rewrite E, (Hends _ _ _ E). do 3 f_equal. lia.
  - now apply Qle_bool_iff.
Qed.

Lemma detected_slump_lookup_is_exact_witness :
  exists out df' slumps,
    analyze_nifty_data 2024 closes_2018_2023 = Ok (out, df')
    /\ find_slumps (yearly_returns out) = Ok slumps.
Proof.
  assert (Hdf : price_series closes_2018_2023) by reflexivity.
  destruct (detected_slump_lookup_is_exact 2024 closes_2018_2023 Hdf)
    as (out & df' & slumps & Hrun & Hslumps & _).
  exists out, df', slumps. split; assumption.
Defined.

(** ** Only the last close of a year matters *)

Lemma date_ltb_irrefl (d : Date) : date_ltb d d = false.
Proof.
  destruct (date_ltb d d) eqn:E; [|reflexivity].
  apply date_ltb_iff in E. lia.
Qed.

Lemma date_leb_antisym (a b : Date) :
  date_leb a b = true -> date_leb b a = true -> a = b.
Proof.
  rewrite !date_leb_iff, !date_ltb_iff. intros [H1|H1] [H2|H2]; auto; lia.
Qed.

Lemma sorted_rows_functional (idx : list Date) (cells : list cell) (d : Date) (x x' : cell) :
  StronglySorted date_lt idx ->
  In (d, x) (combine idx cells) -> In (d, x') (combine idx cells) -> x = x'.
Proof.
  intros Hs. revert cells. induction Hs as [|d0 rest Hs IH Hd0]; intros cells H H';
    [contradiction|].
  destruct cells as [|c0 cells]; [contradiction|].
  rewrite Forall_forall in Hd0.
  assert (Hnot : forall y, In (d0, y) (combine rest cells) -> False).
  { intros y Hy. apply in_combine_l in Hy. specialize (Hd0 d0 Hy).
    unfold date_lt in Hd0. rewrite date_ltb_irrefl in Hd0. discriminate. }
  destruct H as [H|H], H' as [H'|H'].
  - congruence.
  - injection H as <- _. destruct (Hnot _ H').
  - injection H' as <- _. destruct (Hnot _ H).
  - now apply (IH cells).
Qed.

(** On a price series the latest row on or before a label is unique, and
    so is its close. *)
Lemma last_close_unique (df : DataFrame) (label : Date) (c c' : Q) :
  price_series df ->
  last_close_on_or_before df label c -> last_close_on_or_before df label c' ->
  c = c'.
Proof.
  intros Hdf (close & d & Hclose & Hin & Hle & Hmax)
             (close' & d' & Hclose' & Hin' & Hle' & Hmax').
  assert (close' = close) by congruence. subst close'.
  destruct (price_series_close df Hdf) as (cells & Hc & _ & _ & Hinc & _).
  unfold getitem in Hclose. rewrite Hc in Hclose. injection Hclose as <-.
  assert (d = d').
  { apply date_leb_antisym; [eapply Hmax' | eapply Hmax]; eauto. }
  subst d'.
  pose proof (sorted_rows_functional _ _ _ _ _ (increasing_sorted _ Hinc) Hin Hin').
  congruence.
Qed.

(** X13.  The yearly returns, their mean and the two probabilities depend on
    a price series only through the close of the latest row on or before
    each 31 December: two price series that cover the same years and agree
    on these closes give the same yearly results, whatever their other
    rows. *)
Theorem yearly_results_from_year_end_closes (current_year : Z) (df1 df2 : DataFrame) :
  price_series df1 -> price_series df2 ->
  years_covered df1 = years_covered df2 ->
  (forall y c, In y (years_covered df1) ->
     last_close_on_or_before df1 (year_end y) c ->
     last_close_on_or_before df2 (year_end y) c) ->
  exists out1 df1' out2 df2',
    analyze_nifty_data current_year df1 = Ok (out1, df1')
    /\ analyze_nifty_data current_year df2 = Ok (out2, df2')
    /\ yearly_returns out1 = yearly_returns out2
    /\ mean_yearly_return out1 = mean_yearly_return out2
    /\ probability_next_year_exceeds out1 = probability_next_year_exceeds out2
    /\ probability_next_two_years_exceeds out1
       = probability_next_two_years_exceeds out2.
Proof.
  intros Hdf1 Hdf2 Hyears Hcloses.
  destruct (analyze_price_series current_year df1 Hdf1)
    as (c1 & slumps1 & Hc1 & _ & Hslumps1 & Hrun1).
  destruct (analyze_price_series current_year df2 Hdf2)
    as (c2 & slumps2 & Hc2 & _ & Hslumps2 & Hrun2).
  cbv zeta in Hrun1, Hrun2.
  assert (Hyr : returns_of year_key year_end (combine (index df1) c1)
                = returns_of year_key year_end (combine (index df2) c2)).
  { destruct (price_series_close df1 Hdf1) as (c1' & Hc1' & Hlen1 & Hpos1 & Hinc1 & Hvalid1).
    destruct (price_series_close df2 Hdf2) as (c2' & Hc2' & Hlen2 & Hpos2 & Hinc2 & Hvalid2).
    assert (c1' = c1) by congruence. assert (c2' = c2) by congruence. subst c1' c2'.
    unfold years_covered in Hyears, Hcloses.
    destruct (index df1) as [|d1 rest1] eqn:Hidx1;
      destruct (index df2) as [|d2 rest2] eqn:Hidx2.
    - reflexivity.
    - exfalso. rewrite <- Hidx2 in *.
      pose proof (first_last_year (index df2) d2 rest2 Hidx2 Hinc2) as Hab.
      apply (f_equal (@List.length Z)) in Hyears. unfold Zrange in Hyears.
      rewrite length_map, length_seq in Hyears. simpl in Hyears. lia.
    - exfalso. rewrite <- Hidx1 in *.
      pose proof (first_last_year (index df1) d1 rest1 Hidx1 Hinc1) as Hab.
      apply (f_equal (@List.length Z)) in Hyears. unfold Zrange in Hyears.
      rewrite length_map, length_seq in Hyears. simpl in Hyears. lia.
    - rewrite <- Hidx1, <- Hidx2 in *.
      pose proof (first_last_year (index df1) d1 rest1 Hidx1 Hinc1) as Hab1.
      pose proof (first_last_year (index df2) d2 rest2 Hidx2 Hinc2) as Hab2.
      rewrite (yearly_returns_closed_form (index df1) c1 d1 rest1 Hidx1 Hlen1
                 Hpos1 Hinc1 Hvalid1).
      rewrite (yearly_returns_closed_form (index df2) c2 d2 rest2 Hidx2 Hlen2
                 Hpos2 Hinc2 Hvalid2).
      set (a1 := year d1) in *. set (b1 := year (last (index df1) d1)) in *.
      set (a2 := year d2) in *. set (b2 := year (last (index df2) d2)) in *.
      assert (Ha : a1 = a2).
      { unfold Zrange in Hyears.
        replace (Z.to_nat (b1 - a1 + 1)) with (S (Z.to_nat (b1 - a1))) in Hyears by lia.
        replace (Z.to_nat (b2 - a2 + 1)) with (S (Z.to_nat (b2 - a2))) in Hyears by lia.
        simpl in Hyears. injection Hyears as Hhd _. lia. }
      assert (Hb : b1 = b2).
      { apply (f_equal (@List.length Z)) in Hyears. unfold Zrange in Hyears.
        rewrite !length_map, !length_seq in Hyears. lia. }
      rewrite <- Ha, <- Hb in *.
      assert (Hsame : forall y, a1 <= y <= b1 ->
                yearly_close (combine (index df1) c1) y
                = yearly_close (combine (index df2) c2) y).
      { intros y Hy.
        destruct (yearly_close_latest (index df1) c1 d1 rest1 Hidx1 Hlen1 Hpos1
                    Hinc1 Hvalid1 y) as (e1 & _ & _ & Hin1 & Hle1 & Hmax1);
          [fold a1; lia|].
        destruct (yearly_close_latest (index df2) c2 d2 rest2 Hidx2 Hlen2 Hpos2
                    Hinc2 Hvalid2 y) as (e2 & _ & _ & Hin2 & Hle2 & Hmax2);
          [fold a2; lia|].
        apply (last_close_unique df2 (year_end y)); [exact Hdf2 | |].
        - apply Hcloses; [apply Zrange_In; lia|].
          exists (combine (index df1) c1), e1. unfold getitem. rewrite Hc1.
          repeat split; auto.
        - exists (combine (index df2) c2), e2. unfold getitem. rewrite Hc2.
          repeat split; auto. }
      apply map_ext_in. intros i Hi. apply in_seq in Hi.
      rewrite (Hsame (a1 + Z.of_nat (S i))), (Hsame (a1 + Z.of_nat i)) by lia.
      reflexivity. }
  rewrite Hyr in *.
  assert (slumps1 = slumps2) by congruence. subst slumps2.
  eexists. eexists. eexists. eexists.
  split; [exact Hrun1|]. split; [exact Hrun2|].
  cbn [yearly_returns mean_yearly_return probability_next_year_exceeds
         probability_next_two_years_exceeds].
  repeat split.
Qed.

Lemma year_end_close_is_latest (df : DataFrame) (cells : list cell) (y : Z) :
  price_series df ->
  lookup_column "Close" (columns df) = Ok cells ->
  In y (years_covered df) ->
  last_close_on_or_before df (year_end y)
    (yearly_close (combine (index df) cells) y).
Proof.
  intros Hdf Hc Hy.
  destruct (price_series_close df Hdf) as (c' & Hc' & Hlen & Hpos & Hinc & Hvalid).
  assert (c' = cells) by congruence. subst c'.
  unfold years_covered in Hy.
  destruct (index df) as [|d0 rest] eqn:Hidx; [contradiction|].
  rewrite <- Hidx in *. apply Zrange_In in Hy.
  destruct (yearly_close_latest (index df) cells d0 rest Hidx Hlen Hpos Hinc
              Hvalid y) as (d & _ & _ & Hin & Hle & Hmax); [lia|].
  exists (combine (index df) cells), d. unfold getitem. rewrite Hc.
  repeat split; auto.
Qed.

Lemma yearly_results_from_year_end_closes_witness :
  exists out1 df1' out2 df2',
    analyze_nifty_data 2024 closes_2018_2023 = Ok (out1, df1')
    /\ analyze_nifty_data 2024 closes_2018_2023_with_midyear = Ok (out2, df2')
    /\ yearly_returns out1 = yearly_returns out2.
Proof.
  assert (Hdf1 : price_series closes_2018_2023) by reflexivity.
  assert (Hdf2 : price_series closes_2018_2023_with_midyear) by reflexivity.
  assert (Hyears : years_covered closes_2018_2023
                   = years_covered closes_2018_2023_with_midyear) by reflexivity.
  assert (Hcloses : forall y c, In y (years_covered closes_2018_2023) ->
            last_close_on_or_before closes_2018_2023 (year_end y) c ->
            last_close_on_or_before closes_2018_2023_with_midyear (year_end y) c).
  { intros y c Hy Hlast.
    pose proof (year_end_close_is_latest closes_2018_2023 _ y Hdf1 eq_refl Hy) as H1.
    rewrite (last_close_unique _ _ _ _ Hdf1 Hlast H1).
    rewrite Hyears in Hy.
    pose proof (year_end_close_is_latest closes_2018_2023_with_midyear _ y Hdf2
                  eq_refl Hy) as H2.
    match goal with
    | |- last_close_on_or_before _ _ ?q1 =>
        match type of H2 with
        | last_close_on_or_before _ _ ?q2 => assert (E : q1 = q2)
        end
    end; [|rewrite E; exact H2].
    simpl in Hy.
    repeat (destruct Hy as [<-|Hy]; [vm_compute; reflexivity|]).
    contradiction. }
  destruct (yearly_results_from_year_end_closes 2024 _ _ Hdf1 Hdf2 Hyears Hcloses)
    as (out1 & df1' & out2 & df2' & Hrun1 & Hrun2 & Hyr & _).
  exists out1, df1', out2, df2'. repeat split; assumption.
Defined.
